(** * pydeface: the defacing pipeline of [pydeface/__main__.py]

    A shallow embedding of [deface_image] and [main] together with the
    part of numpy they rely on (shapes, [squeeze], broadcasting
    multiplication, [np.stack] along a new trailing axis) and the part
    of nibabel they rely on (the header that [Nifti1Image] builds, the
    file that [to_filename] writes), and the properties of the pipeline
    stated in the design document. *)

From Stdlib Require Import ZArith Lia Ascii.
From stdpp Require Import base option list strings gmap.

Open Scope nat_scope.

(** ** Exceptions and results

    Python code either returns a value or raises.  Only the exception
    classes that the pipeline can meet are listed. *)

Inductive exn : Type :=
  | ValueError          (* numpy: operands could not be broadcast, empty stack *)
  | IndexError          (* tuple index out of range *)
  | FileNotFoundError   (* load / os.remove / nipype input on a missing path *)
  | FileExistsError     (* mkstemp: no usable temporary file name found *)
  | ImageFileError      (* nibabel: not a readable volume, or not a file name
                           of the image class *)
  | RuntimeError        (* nipype: the registration engine reported failure *)
  | OutputExists.       (* output_checks: target exists and no force flag *)

Inductive result (A : Type) : Type :=
  | Ok (a : A)
  | Raise (e : exn).
Arguments Ok {A} a.
Arguments Raise {A} e.

#[global] Instance exn_eq_dec : EqDecision exn.
Proof. solve_decision. Defined.

(** The element type of a voxel array: numpy's [*] on the array's dtype.
    [dzero] is only the value read outside a buffer, which a well-formed
    array never does. *)
Class Dtype (A : Type) := { dmul : A → A → A; dzero : A }.

#[global] Instance Z_dtype : Dtype Z := {| dmul := Z.mul; dzero := 0%Z |}.

(** ** numpy arrays *)

Module np.

(** An array is a shape and a C-ordered (row-major) buffer. *)
Record ndarray (A : Type) : Type := mk_ndarray {
  shape : list nat;
  data : list A
}.
Arguments mk_ndarray {A} shape data.
Arguments shape {A} _.
Arguments data {A} _.

(** Number of elements of a shape. *)
Definition size (s : list nat) : nat := foldr Nat.mul 1 s.

(** Every numpy array carries a buffer of exactly [size shape] elements. *)
Definition wf {A} (a : ndarray A) : Prop := length (data a) = size (shape a).

(** Row-major position of a multi-index, and its inverse. *)
Fixpoint ravel (s idx : list nat) : nat :=
  match s, idx with
  | n :: s', i :: idx' => i * size s' + ravel s' idx'
  | _, _ => 0
  end.

Fixpoint unravel (s : list nat) (k : nat) : list nat :=
  match s with
  | [] => []
  | n :: s' => (k / size s') :: unravel s' (k mod size s')
  end.

(** [idx] addresses an element of an array of shape [s]. *)
Definition in_bounds (s idx : list nat) : Prop := Forall2 lt idx s.

#[global] Instance in_bounds_dec s idx : Decision (in_bounds s idx).
Proof. unfold in_bounds. apply _. Defined.

Section arrays.
Context {A : Type} `{Dtype A}.

(** Unchecked read of the buffer at a multi-index. *)
Definition item (a : ndarray A) (idx : list nat) : A :=
  default dzero (data a !! ravel (shape a) idx).

(** [a[i, j, ...]] with a full index: [None] stands for IndexError. *)
Definition getitem (a : ndarray A) (idx : list nat) : option A :=
  if decide (in_bounds (shape a) idx)
  then data a !! ravel (shape a) idx
  else None.

(** [a.squeeze()]: every axis of length one is removed; the buffer is
    shared. *)
Definition squeeze (a : ndarray A) : ndarray A :=
  mk_ndarray (filter (λ n, n ≠ 1) (shape a)) (data a).

(** Broadcasting of one pair of axis lengths. *)
Definition broadcast_dim (n1 n2 : nat) : option nat :=
  if decide (n1 = n2) then Some n1
  else if decide (n1 = 1) then Some n2
  else if decide (n2 = 1) then Some n1
  else None.

(** Broadcasting of two shapes given last axis first: the shorter
    shape is extended with axes of length one. *)
Fixpoint broadcast_rev (r1 r2 : list nat) : option (list nat) :=
  match r1, r2 with
  | [], r => Some r
  | r, [] => Some r
  | n1 :: r1', n2 :: r2' =>
      d ← broadcast_dim n1 n2;
      r ← broadcast_rev r1' r2';
      Some (d :: r)
  end.

(** [np.broadcast_shapes]: shapes are aligned on their last axis. *)
Definition broadcast_shapes (s1 s2 : list nat) : option (list nat) :=
  reverse <$> broadcast_rev (reverse s1) (reverse s2).

(** The index read in an operand of shape [s] for the index [idx] of
    the broadcast result: leading axes of the result that the operand
    lacks are dropped, and an axis of length one is read at 0. *)
Definition bcast_index (s idx : list nat) : list nat :=
  zip_with (λ n i, if decide (n = 1) then 0 else i)
           s (drop (length idx - length s) idx).

(** [a * b] on arrays. *)
Definition multiply (a b : ndarray A) : result (ndarray A) :=
  match broadcast_shapes (shape a) (shape b) with
  | None => Raise ValueError
  | Some s =>
      Ok (mk_ndarray s
            ((λ k, let idx := unravel s k in
                   dmul (item a (bcast_index (shape a) idx))
                        (item b (bcast_index (shape b) idx)))
               <$> seq 0 (size s)))
  end.

(** [np.stack(arrays, axis=-1)]: the arrays must be at least one and
    of one shape; element [idx ++ [t]] of the result is element [idx]
    of the [t]-th array. *)
Definition stack (arrays : list (ndarray A)) : result (ndarray A) :=
  match arrays with
  | [] => Raise ValueError
  | a0 :: rest =>
      if decide (Forall (λ a, shape a = shape a0) rest)
      then Ok (mk_ndarray (shape a0 ++ [length arrays])
                 (flat_map (λ j, (λ a, default dzero (data a !! j)) <$> arrays)
                           (seq 0 (size (shape a0)))))
      else Raise ValueError
  end.

End arrays.

End np.

(** ** Command-line arguments and registration inputs *)

(** The [argparse.Namespace] that [main] builds; [None] is an option
    that was not given. *)
Module Namespace.
Record t : Type := mk {
  infile : string;
  outfile : option string;
  force : bool;
  applyto : option (list string);
  cost : string;
  template : option string;
  facemask : option string;
  nocleanup : bool;
  verbose : bool
}.
End Namespace.

(** The inputs of one [fsl.FLIRT()] node; an input left undefined is
    [None] ([apply_xfm] is then false). *)
Module fsl.
Record FLIRT : Type := mk {
  cost_func : option string;
  in_file : string;
  in_matrix_file : option string;
  apply_xfm : bool;
  reference : string;
  out_file : string;
  out_matrix_file : string
}.

#[global] Instance FLIRT_eq_dec : EqDecision FLIRT.
Proof. solve_decision. Defined.
End fsl.

Definition nl : string := String (Ascii.ascii_of_nat 10) EmptyString.

(** Python's [s * n] on strings. *)
Fixpoint str_repeat (s : string) (n : nat) : string :=
  match n with
  | 0 => EmptyString
  | S n' => s +:+ str_repeat s n'
  end.

(** ** nibabel file names

    [img.to_filename(p)] does not write at just any [p]:
    [nibabel.filename_parser.types_filenames] works out the name of the
    file from [p] and the extensions of the image class, which for a
    [Nifti1Image] are [.nii] with the compressed suffixes [.gz] and
    [.bz2] (nibabel 3.2 and later also take [.zst], which is left
    out), and refuses a name with any other extension.  Comparisons
    ignore the case of ASCII letters. *)
Module filename_parser.

Definition lower_ascii (c : Ascii.ascii) : Ascii.ascii :=
  let n := Ascii.nat_of_ascii c in
  if (65 <=? n) && (n <=? 90) then Ascii.ascii_of_nat (n + 32) else c.

Definition upper_ascii (c : Ascii.ascii) : Ascii.ascii :=
  let n := Ascii.nat_of_ascii c in
  if (97 <=? n) && (n <=? 122) then Ascii.ascii_of_nat (n - 32) else c.

Fixpoint str_map (f : Ascii.ascii → Ascii.ascii) (s : string) : string :=
  match s with
  | EmptyString => EmptyString
  | String c s' => String (f c) (str_map f s')
  end.

(** [s.lower()] and [s.upper()]. *)
Definition lower : string → string := str_map lower_ascii.
Definition upper : string → string := str_map upper_ascii.

(** When [s.lower().endswith(ext.lower())], for [ext] not empty: the
    pair [(s[:-len(ext)], s[-len(ext):])]. *)
Fixpoint isplit (ext s : string) : option (string * string) :=
  if String.eqb (lower s) (lower ext) then Some (EmptyString, s)
  else match s with
       | EmptyString => None
       | String c s' => prod_map (String c) id <$> isplit ext s'
       end.

(** Whether [os.path.splitext] finds an extension: the last component
    of the path has a dot that comes after a character other than a
    dot.  [seen] says that such a character was met in the component
    being read, [found] that such a dot was. *)
Fixpoint extension_from (seen found : bool) (s : string) : bool :=
  match s with
  | EmptyString => found
  | String c s' =>
      if Ascii.eqb c "/"%char then extension_from false false s'
      else if Ascii.eqb c "."%char then extension_from seen (found || seen) s'
      else extension_from true found s'
  end.

Definition has_extension : string → bool := extension_from false false.

(** The case given to the extension that is written: that of the
    extension found when it is all upper or all lower case. *)
Definition proc_ext (found_ext ext : string) : string :=
  if String.eqb found_ext (upper found_ext) then upper ext
  else if String.eqb found_ext (lower found_ext) then lower ext
  else ext.

(** [types_filenames(template_fname, (('image', '.nii'),),
    trailing_suffixes=('.gz', '.bz2'))['image']], with [None] for
    TypesFilenamesError.  One final dot is dropped and a compressed
    suffix set aside; a name that then ends in [.nii] keeps its
    extension (in lower case when its case is mixed) and its suffix; a
    name with another extension, or with a suffix and no extension, is
    refused; a name with neither gets [.nii]. *)
Definition types_filenames (template_fname : string) : option string :=
  let template_fname :=
    match isplit "." template_fname with
    | Some (rest, _) => rest
    | None => template_fname
    end in
  let '(filename, ignored) :=
    match isplit ".gz" template_fname with
    | Some split => split
    | None => default (template_fname, EmptyString)
                      (isplit ".bz2" template_fname)
    end in
  match isplit ".nii" filename with
  | Some (filename, found_ext) =>
      Some (filename +:+ proc_ext found_ext ".nii" +:+ ignored)
  | None =>
      if has_extension filename then None
      else match ignored with
           | EmptyString => Some (filename +:+ ".nii")
           | _ => None
           end
  end.

(** The file that a volume saved as [p] is written to; [p] itself when
    nibabel refuses it and nothing is written. *)
Definition image_filename (p : string) : string :=
  default p (types_filenames p).

End filename_parser.

(** ** The pipeline *)

Section pipeline.
Context {voxel : Type} `{Dtype voxel}.
(** Affines, transform matrices and the fields of a header other than
    the data shape are carried, never looked into. *)
Context {affine header xfm : Type}.

(** A NIfTI header: the shape of the data it describes, and its other
    fields. *)
Record Nifti1Header : Type := Header {
  get_data_shape : list nat;
  other_fields : header
}.

(** [hdr.set_data_shape(s)], on a copy. *)
Definition set_data_shape (hdr : Nifti1Header) (s : list nat) : Nifti1Header :=
  Header s (other_fields hdr).

(** A nibabel image: voxel data, affine, and the header fields other
    than the shape, which is that of the data.  [load] is modelled as
    reading the three at once: the program calls [get_data] on an image
    before anything can change its file, and nibabel keeps the array it
    has read. *)
Record image : Type := Image {
  get_data : np.ndarray voxel;
  get_affine : affine;
  header_fields : header
}.

(** [img.get_header()]: the shape fields are those of the data. *)
Definition get_header (img : image) : Nifti1Header :=
  Header (np.shape (get_data img)) (header_fields img).

(** [Nifti1Image(dataobj, affine, header)]: the image gets a copy of
    the header whose shape fields are set to the shape of [dataobj];
    the other fields are kept. *)
Definition Nifti1Image (dataobj : np.ndarray voxel) (aff : affine)
    (hdr : Nifti1Header) : image :=
  Image dataobj aff (other_fields hdr).

(** What a path can hold.  A path holds [VolumeFile img] when nibabel
    reads the file there as [img]; a file that nibabel does not read as
    a volume, for its name or for its content, is of another kind. *)
Inductive file : Type :=
  | EmptyFile                (* as created by mkstemp *)
  | VolumeFile (img : image)
  | MatrixFile (m : xfm).

(** Calls that leave the process, in the order they are made. *)
Inductive event : Type :=
  | EvPrint (s : string)
  | EvMkstemp (p : string)
  | EvFlirt (inputs : fsl.FLIRT)
  | EvSave (p : string) (img : image)
  | EvRemove (p : string).

(** The file system, the names [mkstemp] will try next, and the calls
    made so far. *)
Record world : Type := World {
  files : gmap string file;
  tmpnames : list string;
  trace : list event
}.

(** Computations of the program: they read and change the world and
    return or raise. *)
Definition M (T : Type) : Type := world → result T * world.

#[global] Instance M_ret : MRet M := λ _ x w, (Ok x, w).
#[global] Instance M_bind : MBind M := λ _ _ f m w,
  match m w with
  | (Ok a, w') => f a w'
  | (Raise e, w') => (Raise e, w')
  end.

Definition raise {T} (e : exn) : M T := λ w, (Raise e, w).

Definition lift {T} (r : result T) : M T := λ w, (r, w).

Definition emit (e : event) : M unit := λ w,
  (Ok tt, World (files w) (tmpnames w) (trace w ++ [e])).

Definition print (s : string) : M unit := emit (EvPrint s).

(** What the registration engine is asked, and its answer: the
    resampled moving volume and a transform matrix, or failure. *)
Record flirt_query : Type := Query {
  q_cost : option string;
  q_moving : image;
  q_reference : image;
  q_matrix : option xfm;
  q_apply_xfm : bool
}.

(** What the program takes from outside: the registration engine
    behind nipype, the packaged default assets, the default output
    naming of [pydeface.utils] and the installed package version. *)
Class Externals : Type := {
  flirt_engine : flirt_query → option (image * xfm);
  default_template : string;
  default_facemask : string;
  default_outfile : string → string;
  version : string
}.

Context {ext : Externals}.

(** *** Files *)

Definition exists_ (p : string) : M bool := λ w,
  (Ok (bool_decide (is_Some (files w !! p))), w).

(** [nibabel.load]. *)
Definition load (p : string) : M image := λ w,
  match files w !! p with
  | Some (VolumeFile img) => (Ok img, w)
  | Some _ => (Raise ImageFileError, w)
  | None => (Raise FileNotFoundError, w)
  end.

Definition read_matrix (p : string) : M xfm := λ w,
  match files w !! p with
  | Some (MatrixFile m) => (Ok m, w)
  | Some _ => (Raise RuntimeError, w)
  | None => (Raise FileNotFoundError, w)
  end.

Definition write (p : string) (f : file) : M unit := λ w,
  (Ok tt, World (<[p := f]> (files w)) (tmpnames w) (trace w)).

(** [img.to_filename(p)]: the volume is written to the file that
    nibabel names from [p]; a [p] that is not a name for a NIfTI file
    raises ImageFileError and nothing is written. *)
Definition to_filename (img : image) (p : string) : M unit :=
  match filename_parser.types_filenames p with
  | None => raise ImageFileError
  | Some fname => emit (EvSave fname img);; write fname (VolumeFile img)
  end.

(** [os.remove(p)]. *)
Definition remove (p : string) : M unit := λ w,
  match files w !! p with
  | Some _ =>
      (Ok tt, World (delete p (files w)) (tmpnames w) (trace w ++ [EvRemove p]))
  | None => (Raise FileNotFoundError, w)
  end.

(** [tempfile.mkstemp()]: candidate names are tried in turn until one
    does not exist; that file is created empty and its name returned.
    The descriptor is dropped, as the program drops it. *)
Fixpoint first_free (fs : gmap string file) (names : list string)
    : option (string * list string) :=
  match names with
  | [] => None
  | n :: rest =>
      if decide (is_Some (fs !! n)) then first_free fs rest
      else Some (n, rest)
  end.

Definition mkstemp : M string := λ w,
  match first_free (files w) (tmpnames w) with
  | None => (Raise FileExistsError, World (files w) [] (trace w))
  | Some (n, rest) =>
      (Ok n, World (<[n := EmptyFile]> (files w)) rest
                   (trace w ++ [EvMkstemp n]))
  end.

(** *** The registration adapter

    [flirt.run()] on a node with the given inputs.  nipype refuses an
    input file that does not exist; the engine then reads the moving
    and reference volumes (and the initial matrix when one is given)
    and, unless it fails, writes [out_file] and [out_matrix_file]. *)
Definition flirt_run (inputs : fsl.FLIRT) : M unit :=
  emit (EvFlirt inputs);;
  moving ← load (fsl.in_file inputs);
  ref ← load (fsl.reference inputs);
  init ← match fsl.in_matrix_file inputs with
         | Some p => m ← read_matrix p; mret (Some m)
         | None => mret None
         end;
  match flirt_engine (Query (fsl.cost_func inputs) moving ref init
                            (fsl.apply_xfm inputs)) with
  | None => raise RuntimeError
  | Some (out, mat) =>
      write (fsl.out_file inputs) (VolumeFile out);;
      write (fsl.out_matrix_file inputs) (MatrixFile mat)
  end.

(** *** pydeface.utils

    Modelled from the spec: [initial_checks] of [pydeface/utils.py],
    which this file imports.  Each of template and facemask is the
    override when one is given and the packaged default otherwise;
    both must resolve to existing readable volumes. *)
Definition initial_checks (template facemask : option string)
    : M (string * string) :=
  let template := default default_template template in
  let facemask := default default_facemask facemask in
  load template;;
  load facemask;;
  mret (template, facemask).

(** Modelled from the spec: [output_checks] of [pydeface/utils.py].
    The output path is the override when one is given and the
    suffix-based default name otherwise; the call fails if the target
    exists and overwriting is not allowed.  [outfile] and [force]
    default to [None] and [False]. *)
Definition output_checks (infile : string) (outfile : option string)
    (force : bool) : M string :=
  let outfile := default (default_outfile infile) outfile in
  present ← exists_ outfile;
  if present && negb force then raise OutputExists else mret outfile.

(** *** deface_image *)

(** The temporary files of one run. *)
Record artifacts : Type := Artifacts {
  template_reg_mat : string;
  warped_mask : string;
  template_reg : string;
  warped_mask_mat : string
}.

(** Lines 42-50, [# temporary files]. *)
Definition temporary_files (verbose : bool) : M artifacts :=
  template_reg_mat ← mkstemp;
  let template_reg_mat := template_reg_mat +:+ ".mat" in
  warped_mask ← mkstemp;
  let warped_mask := warped_mask +:+ ".nii.gz" in
  (if verbose
   then print ("Temporary files:" +:+ nl +:+ "  " +:+ template_reg_mat
               +:+ nl +:+ "  " +:+ warped_mask)
   else mret tt);;
  template_reg ← mkstemp;
  warped_mask_mat ← mkstemp;
  mret (Artifacts template_reg_mat warped_mask template_reg warped_mask_mat).

(** Lines 76-83: the product of the squeezed subject data and the
    mask data and, when numpy raises ValueError, the product of the
    subject data and the mask stacked [shape[-1]] times along a new
    last axis. *)
Definition multiply_mask (infile_data warped_mask_data : np.ndarray voxel)
    : result (np.ndarray voxel) :=
  match np.multiply (np.squeeze infile_data) warped_mask_data with
  | Raise ValueError =>
      match last (np.shape infile_data) with
      | None => Raise IndexError
      | Some n =>
          match np.stack (replicate n warped_mask_data) with
          | Ok tmpdata => np.multiply infile_data tmpdata
          | Raise e => Raise e
          end
      end
  | r => r
  end.

Definition deface_image (args : Namespace.t) : M image :=
  '(template, facemask) ← initial_checks (Namespace.template args)
                                          (Namespace.facemask args);
  let infile := Namespace.infile args in
  outfile ← output_checks infile (Namespace.outfile args)
                          (Namespace.force args);
  tmp ← temporary_files (Namespace.verbose args);
  print ("Defacing..." +:+ nl +:+ "  " +:+ infile);;
  (* register template to infile *)
  flirt_run {| fsl.cost_func := Some (Namespace.cost args);
               fsl.in_file := template;
               fsl.in_matrix_file := None;
               fsl.apply_xfm := false;
               fsl.reference := infile;
               fsl.out_file := template_reg tmp;
               fsl.out_matrix_file := template_reg_mat tmp |};;
  (* warp facemask to infile *)
  flirt_run {| fsl.cost_func := None;
               fsl.in_file := facemask;
               fsl.in_matrix_file := Some (template_reg_mat tmp);
               fsl.apply_xfm := true;
               fsl.reference := infile;
               fsl.out_file := warped_mask tmp;
               fsl.out_matrix_file := warped_mask_mat tmp |};;
  (* multiply mask by infile and save *)
  infile_img ← load infile;
  warped_mask_img ← load (warped_mask tmp);
  outdata ← lift (multiply_mask (get_data infile_img)
                                (get_data warped_mask_img));
  let masked_brain := Nifti1Image outdata (get_affine infile_img)
                                  (get_header infile_img) in
  to_filename masked_brain outfile;;
  (if Namespace.nocleanup args
   then mret tt
   else remove (warped_mask tmp);;
        remove (template_reg tmp);;
        remove (template_reg_mat tmp));;
  print ("Defaced image saved as:" +:+ nl +:+ "  " +:+ outfile);;
  mret warped_mask_img.

(** *** main *)

(** [for x in l: body(x)]. *)
Fixpoint for_each {T} (l : list T) (body : T → M unit) : M unit :=
  match l with
  | [] => mret tt
  | x :: l' => body x;; for_each l' body
  end.

(** Lines 154-160, the body of the loop over [args.applyto]. *)
Definition apply_mask (warped_mask_img : image) (applyfile : string)
    : M unit :=
  applyfile_img ← load applyfile;
  outdata ← lift (np.multiply (get_data applyfile_img)
                              (get_data warped_mask_img));
  let applyfile_img := Nifti1Image outdata (get_affine applyfile_img)
                                   (get_header applyfile_img) in
  outfile ← output_checks applyfile None false;
  to_filename applyfile_img outfile;;
  print ("  " +:+ applyfile).

(** [main] after [parser.parse_args()]. *)
Definition main (args : Namespace.t) : M unit :=
  let welcome_str := "pydeface " +:+ version in
  let welcome_decor := str_repeat "-" (String.length welcome_str) in
  print (welcome_decor +:+ nl +:+ welcome_str +:+ nl +:+ welcome_decor);;
  warped_mask_img ← deface_image args;
  (* apply mask to other given images *)
  match Namespace.applyto args with
  | Some applyto =>
      print "Defacing mask also applied to:";;
      for_each applyto (apply_mask warped_mask_img)
  | None => mret tt
  end;;
  print "Finished.".

(** The world once [main] has printed its banner. *)
Definition welcomed (w : world) : world :=
  World (files w) (tmpnames w)
    (trace w ++ [EvPrint
       (str_repeat "-" (String.length ("pydeface " +:+ version)) +:+ nl
        +:+ ("pydeface " +:+ version) +:+ nl
        +:+ str_repeat "-" (String.length ("pydeface " +:+ version)))]).

(** *** Reading a trace *)

(** The volumes written with [to_filename], in order. *)
Definition saves (t : list event) : list (string * image) :=
  omap (λ e, match e with EvSave p img => Some (p, img) | _ => None end) t.

(** The registration calls, in order. *)
Definition flirts (t : list event) : list fsl.FLIRT :=
  omap (λ e, match e with EvFlirt inputs => Some inputs | _ => None end) t.

(** The world with path [p] holding [f], or nothing for [None]. *)
Definition with_file (p : string) (f : option file) (w : world) : world :=
  World (partial_alter (λ _, f) p (files w)) (tmpnames w) (trace w).

(** *** Names of one run *)

(** The four temporary paths that [deface_image] hands to FLIRT. *)
Definition temp_paths (tmp : artifacts) : list string :=
  [template_reg_mat tmp; warped_mask tmp; template_reg tmp;
   warped_mask_mat tmp].

(** The temporary paths differ from one another and from the paths in
    [others]. *)
Definition separate (tmp : artifacts) (others : list string) : Prop :=
  NoDup (temp_paths tmp) ∧ Forall (λ p, p ∉ temp_paths tmp) others.

#[global] Instance separate_dec tmp others : Decision (separate tmp others).
Proof. unfold separate. apply _. Defined.

(** The names that [mkstemp] returned, in order. *)
Definition mkstemps (t : list event) : list string :=
  omap (λ e, match e with EvMkstemp p => Some p | _ => None end) t.

(** Two worlds with the same disk and the same names left for
    [mkstemp]; only what was printed or called so far may differ. *)
Definition same_disk (w w' : world) : Prop :=
  files w = files w' ∧ tmpnames w = tmpnames w'.

(** Two computations that, on the same disk, return the same and leave
    the same disk: they can differ only in what they print. *)
Definition same_run {T} (m m' : M T) : Prop :=
  ∀ w w', same_disk w w' →
    (m w).1 = (m' w').1 ∧ same_disk (m w).2 (m' w').2.

End pipeline.

(** Shapes of three axes whose axes of length one all come first. *)
Definition leading_ones (X Y Z : nat) : Prop :=
  (Y = 1 → X = 1) ∧ (Z = 1 → Y = 1).

(** What the design document says the subject shape is collapsed to
    before the direct product: trailing axes of length one are dropped,
    no other axis is. *)
Fixpoint drop_leading_ones (r : list nat) : list nat :=
  match r with
  | 1 :: r' => drop_leading_ones r'
  | _ => r
  end.

Definition collapse_trailing_ones (s : list nat) : list nat :=
  reverse (drop_leading_ones (reverse s)).

(** ** A concrete installation, for examples *)

Module Demo.

(** Voxels are integers; affines, headers and matrices are named. *)
Definition img : Type := @image Z string string.
Definition fs : Type := gmap string (@file Z string string string).

(** [np.arange(1, n + 1).reshape(s)]. *)
Definition arange (s : list nat) : np.ndarray Z :=
  np.mk_ndarray s (Z.of_nat <$> seq 1 (np.size s)).

Definition mask222 : np.ndarray Z :=
  np.mk_ndarray [2; 2; 2] [0; 0; 1; 1; 1; 1; 1; 1]%Z.

Definition template_img : img := Image (arange [2; 2; 2]) "mni" "mni-hdr".
Definition facemask_img : img := Image mask222 "mni" "mni-hdr".
Definition subject_img : img := Image (arange [2; 2; 2]) "sub" "sub-hdr".
Definition single_img : img :=
  Image (arange [2; 2; 2; 1]) "single" "single-hdr".
Definition companion_img : img := Image (arange [2; 2; 2]) "t2" "t2-hdr".
Definition bold_img : img := Image (arange [2; 2; 2; 3]) "bold" "bold-hdr".

(** An engine that resamples the moving volume onto the reference
    grid without changing its voxels. *)
Definition resample (q : @flirt_query Z string string string)
    : option (img * string) :=
  Some (Nifti1Image (get_data (q_moving q)) (get_affine (q_reference q))
                    (get_header (q_reference q)), "xfm").

(** [p.replace('.nii', '_defaced.nii')]: the default output name. *)
Fixpoint defaced (p : string) : string :=
  match p with
  | String "."%char (String "n"%char (String "i"%char (String "i"%char rest)))
    =>
      "_defaced.nii" +:+ defaced rest
  | String c rest => String c (defaced rest)
  | EmptyString => EmptyString
  end.

Definition install (engine : flirt_query → option (img * string))
    : @Externals Z string string string :=
  {| flirt_engine := engine;
     default_template := "/pkg/mean_reg2mean.nii.gz";
     default_facemask := "/pkg/facemask.nii.gz";
     default_outfile := defaced;
     version := "1.1.0" |}.

Definition working : Externals := install resample.
Definition broken : Externals := install (λ _, None).

Definition disk : fs :=
  <["/data/sub.nii.gz" := VolumeFile subject_img]>
  (<["/data/single.nii.gz" := VolumeFile single_img]>
  (<["/data/t2.nii.gz" := VolumeFile companion_img]>
  (<["/data/bold.nii.gz" := VolumeFile bold_img]>
  (<["/pkg/mean_reg2mean.nii.gz" := VolumeFile template_img]>
  (<["/pkg/facemask.nii.gz" := VolumeFile facemask_img]> ∅))))).

Definition tmp_candidates : list string :=
  ["/tmp/tmpa"; "/tmp/tmpb"; "/tmp/tmpc"; "/tmp/tmpd"].

Definition w0 : world := World disk tmp_candidates [].

(** The same disk after an earlier run on the subject. *)
Definition w_again : world :=
  World (<["/data/sub_defaced.nii.gz" := VolumeFile subject_img]> disk)
        tmp_candidates [].

Definition args_of (infile : string) (force : bool)
    (applyto : option (list string)) : Namespace.t :=
  {| Namespace.infile := infile;
     Namespace.outfile := None;
     Namespace.force := force;
     Namespace.applyto := applyto;
     Namespace.cost := "mutualinfo";
     Namespace.template := None;
     Namespace.facemask := None;
     Namespace.nocleanup := false;
     Namespace.verbose := false |}.

Definition args0 : Namespace.t := args_of "/data/sub.nii.gz" false None.

(** The artifacts of a run that starts from [tmp_candidates]. *)
Definition tmp0 : artifacts :=
  Artifacts "/tmp/tmpa.mat" "/tmp/tmpb.nii.gz" "/tmp/tmpc" "/tmp/tmpd".

(** The facemask as [resample] brings it onto the subject grid. *)
Definition warped_img : img := Image mask222 "sub" "sub-hdr".

(** An engine that estimates but cannot apply a transform. *)
Definition estimates_only : Externals :=
  install (λ q, if q_apply_xfm q then None else resample q).

(** The template as [resample] brings it onto the subject grid. *)
Definition registered_img : img :=
  Image (arange [2; 2; 2]) "sub" "sub-hdr".

(** A subject on another grid than the facemask. *)
Definition odd_img : img := Image (arange [3; 2; 2]) "odd" "odd-hdr".

Definition w_odd : world :=
  World (<["/data/odd.nii.gz" := VolumeFile odd_img]> disk) tmp_candidates [].

(** The subject times [mask222]. *)
Definition masked222 : np.ndarray Z :=
  np.mk_ndarray [2; 2; 2] [0; 0; 3; 4; 5; 6; 7; 8]%Z.

(** The default arguments with [--verbose]. *)
Definition args_verbose : Namespace.t :=
  Namespace.mk "/data/sub.nii.gz" None false None "mutualinfo" None None
               false true.

(** The default arguments with [--outfile] and [--force]. *)
Definition args_out (outfile : string) : Namespace.t :=
  Namespace.mk "/data/sub.nii.gz" (Some outfile) true None "mutualinfo"
               None None false false.


End Demo.

(** * Facts about arrays *)

Section np_facts.
Context {A : Type} `{Dtype A}.
Implicit Types (a b c : np.ndarray A) (s idx : list nat).

Lemma size_app s1 s2 : np.size (s1 ++ s2) = np.size s1 * np.size s2.
Proof.
  induction s1 as [|n s1 IH]; simpl; [lia|].
  change (foldr Nat.mul 1 (s1 ++ s2)) with (np.size (s1 ++ s2)).
  change (foldr Nat.mul 1 s1) with (np.size s1).
  rewrite IH. lia.
Qed.

Lemma in_bounds_length s idx : np.in_bounds s idx → length idx = length s.
Proof. apply Forall2_length. Qed.

Lemma ravel_lt s idx : np.in_bounds s idx → np.ravel s idx < np.size s.
Proof.
  unfold np.in_bounds. intros Hb. induction Hb as [|i n idx s Hi _ IH]; simpl.
  - lia.
  - change (foldr Nat.mul 1 s) with (np.size s). nia.
Qed.

Lemma unravel_ravel s idx :
  np.in_bounds s idx → np.unravel s (np.ravel s idx) = idx.
Proof.
  unfold np.in_bounds. intros Hb. induction Hb as [|i n idx s Hi Hb IH]; simpl.
  - done.
  - pose proof (ravel_lt s idx Hb) as Hlt.
    assert (np.size s ≠ 0) by lia.
    f_equal.
    + rewrite Nat.div_add_l by done. rewrite Nat.div_small by done. lia.
    + rewrite Nat.add_comm, Nat.Div0.mod_add.
      rewrite Nat.mod_small by done. done.
Qed.

Lemma ravel_app s1 s2 idx1 idx2 :
  length idx1 = length s1 →
  np.ravel (s1 ++ s2) (idx1 ++ idx2)
  = np.ravel s1 idx1 * np.size s2 + np.ravel s2 idx2.
Proof.
  revert idx1. induction s1 as [|n s1 IH]; intros [|i idx1] Hlen;
    simplify_eq/=; [lia|].
  rewrite IH by done. rewrite size_app. lia.
Qed.

Lemma getitem_item a idx :
  np.wf a → np.in_bounds (np.shape a) idx →
  np.getitem a idx = Some (np.item a idx).
Proof.
  unfold np.wf, np.getitem, np.item. intros Hwf Hb.
  rewrite decide_True by done.
  destruct (lookup_lt_is_Some_2 (np.data a) (np.ravel (np.shape a) idx))
    as [x ->]; [|done].
  rewrite Hwf. by apply ravel_lt.
Qed.

Lemma bcast_index_id s idx : np.in_bounds s idx → np.bcast_index s idx = idx.
Proof.
  intros Hb. unfold np.bcast_index.
  rewrite (in_bounds_length _ _ Hb), Nat.sub_diag, drop_0.
  unfold np.in_bounds in Hb.
  induction Hb as [|i n idx s Hi _ IH]; simpl; [done|].
  rewrite IH. case_decide; f_equal; lia.
Qed.

Lemma multiply_shape a b c :
  np.multiply a b = Ok c →
  np.broadcast_shapes (np.shape a) (np.shape b) = Some (np.shape c).
Proof.
  unfold np.multiply. destruct (np.broadcast_shapes _ _); [|done].
  by intros [= <-].
Qed.

Lemma multiply_Raise a b e :
  np.multiply a b = Raise e →
  e = ValueError ∧ np.broadcast_shapes (np.shape a) (np.shape b) = None.
Proof.
  unfold np.multiply. destruct (np.broadcast_shapes _ _); [done|].
  by intros [= <-].
Qed.

Lemma multiply_wf a b c : np.multiply a b = Ok c → np.wf c.
Proof.
  unfold np.multiply, np.wf. destruct (np.broadcast_shapes _ _); [|done].
  intros [= <-]. simpl. by rewrite length_fmap, length_seq.
Qed.

Lemma multiply_getitem a b c idx :
  np.multiply a b = Ok c → np.in_bounds (np.shape c) idx →
  np.getitem c idx
  = Some (dmul (np.item a (np.bcast_index (np.shape a) idx))
               (np.item b (np.bcast_index (np.shape b) idx))).
Proof.
  intros Hm Hb. rewrite getitem_item by eauto using multiply_wf.
  f_equal. revert Hm Hb. unfold np.multiply.
  destruct (np.broadcast_shapes _ _) as [s|]; [|done].
  intros [= <-] Hb. unfold np.item at 1. simpl in *.
  rewrite list_lookup_fmap, lookup_seq_lt by by apply ravel_lt.
  simpl. by rewrite unravel_ravel.
Qed.


Lemma broadcast_dim_refl n : np.broadcast_dim n n = Some n.
Proof. unfold np.broadcast_dim. by rewrite decide_True. Qed.

Lemma broadcast_rev_refl r : np.broadcast_rev r r = Some r.
Proof.
  induction r as [|n r IH]; simpl; [done|].
  by rewrite broadcast_dim_refl, IH.
Qed.

Lemma broadcast_shapes_refl s : np.broadcast_shapes s s = Some s.
Proof.
  unfold np.broadcast_shapes. rewrite broadcast_rev_refl. simpl.
  by rewrite reverse_involutive.
Qed.

Lemma lookup_flat_map_replicate {B} (f : nat → B) (l : list nat) n j t :
  t < n →
  flat_map (λ j, replicate n (f j)) l !! (j * n + t) = f <$> l !! j.
Proof.
  intros Ht. revert j. induction l as [|x l IH]; intros j; simpl; [done|].
  destruct j as [|j]; simpl.
  - rewrite lookup_app_l by (rewrite length_replicate; lia).
    by rewrite lookup_replicate_2.
  - rewrite lookup_app_r by (rewrite length_replicate; lia).
    rewrite length_replicate.
    replace (n + j * n + t - n) with (j * n + t) by lia. apply IH.
Qed.

Lemma stack_replicate n (m : np.ndarray A) :
  0 < n →
  np.stack (replicate n m)
  = Ok (np.mk_ndarray (np.shape m ++ [n])
          (flat_map (λ j, replicate n (default dzero (np.data m !! j)))
                    (seq 0 (np.size (np.shape m))))).
Proof.
  destruct n as [|n]; [lia|]. intros _. simpl.
  rewrite decide_True by by apply Forall_replicate.
  rewrite length_replicate. do 2 f_equal.
  apply flat_map_ext. intros j. by rewrite fmap_replicate.
Qed.

Lemma stack_empty : np.stack (A:=A) [] = Raise ValueError.
Proof. done. Qed.

Lemma item_stack_replicate n (m tmp : np.ndarray A) idx t :
  np.stack (replicate n m) = Ok tmp →
  np.in_bounds (np.shape m) idx → t < n →
  np.item tmp (idx ++ [t]) = np.item m idx.
Proof.
  intros Hst Hb Ht. rewrite stack_replicate in Hst by lia.
  injection Hst as <-. unfold np.item. simpl.
  rewrite ravel_app by by apply in_bounds_length.
  simpl. replace (n * 1) with n by lia.
  replace (t * 1 + 0) with t by lia.
  rewrite (lookup_flat_map_replicate (λ j, default dzero (np.data m !! j)))
    by done.
  by rewrite lookup_seq_lt by by apply ravel_lt.
Qed.

Lemma squeeze_id a : 1 ∉ np.shape a → np.squeeze a = a.
Proof.
  intros Hs. destruct a as [s d]. unfold np.squeeze. simpl in *. f_equal.
  induction s as [|n s IH]; [done|].
  rewrite filter_cons. rewrite decide_True by set_solver.
  f_equal. apply IH. set_solver.
Qed.

End np_facts.

(** * Facts about the masked multiplication *)

Section multiply_mask_facts.
Context {A : Type} `{Dtype A}.
Implicit Types (subj mask out : np.ndarray A).

Lemma in_bounds_3 X Y Z x y z :
  x < X → y < Y → z < Z → np.in_bounds [X; Y; Z] [x; y; z].
Proof. intros. unfold np.in_bounds. by repeat constructor. Qed.

Lemma in_bounds_4 X Y Z T x y z t :
  x < X → y < Y → z < Z → t < T →
  np.in_bounds [X; Y; Z; T] [x; y; z; t].
Proof. intros. unfold np.in_bounds. by repeat constructor. Qed.

Lemma multiply_mask_direct subj mask out :
  np.multiply (np.squeeze subj) mask = Ok out →
  multiply_mask subj mask = Ok out.
Proof. unfold multiply_mask. by intros ->. Qed.

Lemma multiply_mask_fallback subj mask n tmpdata :
  np.multiply (np.squeeze subj) mask = Raise ValueError →
  last (np.shape subj) = Some n →
  np.stack (replicate n mask) = Ok tmpdata →
  multiply_mask subj mask = np.multiply subj tmpdata.
Proof. unfold multiply_mask. by intros -> -> ->. Qed.

(** C1: for a subject of shape (X,Y,Z,T) and a mask of shape (X,Y,Z),
    the fallback is taken only when the direct product raises
    ValueError; it then stacks the mask T times along a new last axis
    and multiplies, and Output[x,y,z,t] = Subject[x,y,z,t] * Mask[x,y,z]
    for every index.  Arrays are well formed and T is positive, as for
    every volume read from a file. *)
Theorem multiply_mask_broadcast subj mask X Y Z T :
  np.wf subj → np.wf mask →
  np.shape subj = [X; Y; Z; T] → np.shape mask = [X; Y; Z] → 0 < T →
  (∀ out, np.multiply (np.squeeze subj) mask = Ok out →
          multiply_mask subj mask = Ok out)
  ∧ (np.multiply (np.squeeze subj) mask = Raise ValueError →
     ∃ tmpdata out,
       np.stack (replicate T mask) = Ok tmpdata
       ∧ np.shape tmpdata = [X; Y; Z; T]
       ∧ np.multiply subj tmpdata = Ok out
       ∧ multiply_mask subj mask = Ok out
       ∧ np.shape out = [X; Y; Z; T]
       ∧ ∀ x y z t, x < X → y < Y → z < Z → t < T →
           ∃ s m, np.getitem subj [x; y; z; t] = Some s
                  ∧ np.getitem mask [x; y; z] = Some m
                  ∧ np.getitem out [x; y; z; t] = Some (dmul s m)).
Proof.
  intros Hws Hwm Hs Hm HT. split; [apply multiply_mask_direct|].
  intros Hfail.
  pose proof (stack_replicate T mask HT) as Hst.
  set (tmpdata := np.mk_ndarray _ _) in Hst.
  assert (np.shape tmpdata = [X; Y; Z; T]) as Hts by (simpl; by rewrite Hm).
  destruct (np.multiply subj tmpdata) as [out|e] eqn:Hmul; last first.
  { apply multiply_Raise in Hmul as [_ Hb].
    by rewrite Hs, Hts, broadcast_shapes_refl in Hb. }
  pose proof (multiply_shape _ _ _ Hmul) as Hos.
  rewrite Hs, Hts, broadcast_shapes_refl in Hos. injection Hos as Hos.
  exists tmpdata, out. split_and!; try done.
  - rewrite <- Hmul. apply multiply_mask_fallback with T; [done| |done].
    by rewrite Hs.
  - intros x y z t Hx Hy Hz Ht.
    exists (np.item subj [x; y; z; t]), (np.item mask [x; y; z]).
    split_and!.
    + apply getitem_item; [done|]. rewrite Hs. by apply in_bounds_4.
    + apply getitem_item; [done|]. rewrite Hm. by apply in_bounds_3.
    + rewrite (multiply_getitem _ _ _ _ Hmul)
        by (rewrite <- Hos; by apply in_bounds_4).
      rewrite Hs, Hts.
      rewrite bcast_index_id by by apply in_bounds_4.
      do 2 f_equal.
      change [x; y; z; t] with ([x; y; z] ++ [t]).
      apply item_stack_replicate with T; [done| |done].
      rewrite Hm. by apply in_bounds_3.
Qed.

Lemma squeeze_shape (a : np.ndarray A) :
  np.shape (np.squeeze a) = filter (λ n, n ≠ 1) (np.shape a).
Proof. done. Qed.

Lemma squeeze_data (a : np.ndarray A) : np.data (np.squeeze a) = np.data a.
Proof. done. Qed.

Lemma multiply_Ok_inv (a b : np.ndarray A) s :
  np.broadcast_shapes (np.shape a) (np.shape b) = Some s →
  ∃ c, np.multiply a b = Ok c ∧ np.shape c = s.
Proof. intros Hb. unfold np.multiply. rewrite Hb. eauto. Qed.

Lemma broadcast_squeezed_3 X Y Z :
  leading_ones X Y Z →
  np.broadcast_shapes (filter (λ n, n ≠ 1) [X; Y; Z]) [X; Y; Z]
  = Some [X; Y; Z].
Proof.
  intros [HY HZ]. rewrite !filter_cons, filter_nil.
  unfold np.broadcast_shapes.
  repeat case_decide; simpl; unfold np.broadcast_dim;
    repeat case_decide; simplify_eq/=; try done; lia.
Qed.

Lemma ravel_squeezed_3 X Y Z x y z :
  leading_ones X Y Z → x < X → y < Y → z < Z →
  np.ravel (filter (λ n, n ≠ 1) [X; Y; Z])
           (np.bcast_index (filter (λ n, n ≠ 1) [X; Y; Z]) [x; y; z])
  = np.ravel [X; Y; Z] [x; y; z].
Proof.
  intros [HY HZ] Hx Hy Hz. rewrite !filter_cons, filter_nil.
  unfold np.bcast_index.
  repeat case_decide; simpl; repeat case_decide; simplify_eq/=; lia.
Qed.

(** C6, as amended: the direct path removes every axis of length one
    from the subject data, trailing or not; for a subject and a mask
    of shape (X,Y,Z) whose axes of length one, if any, all come first,
    the output has shape (X,Y,Z) and is the element-wise product. *)
Theorem direct_multiply_3d subj mask X Y Z :
  np.wf subj → np.wf mask →
  np.shape subj = [X; Y; Z] → np.shape mask = [X; Y; Z] →
  leading_ones X Y Z →
  np.shape (np.squeeze subj) = filter (λ n, n ≠ 1) [X; Y; Z]
  ∧ np.data (np.squeeze subj) = np.data subj
  ∧ ∃ out,
      np.multiply (np.squeeze subj) mask = Ok out
      ∧ multiply_mask subj mask = Ok out
      ∧ np.shape out = [X; Y; Z]
      ∧ ∀ x y z, x < X → y < Y → z < Z →
          ∃ s m, np.getitem subj [x; y; z] = Some s
                 ∧ np.getitem mask [x; y; z] = Some m
                 ∧ np.getitem out [x; y; z] = Some (dmul s m).
Proof.
  intros Hws Hwm Hs Hm Hlead.
  split; [by rewrite squeeze_shape, Hs|]. split; [done|].
  destruct (multiply_Ok_inv (np.squeeze subj) mask [X; Y; Z])
    as (out & Hmul & Hos).
  { rewrite squeeze_shape, Hs, Hm. by apply broadcast_squeezed_3. }
  exists out. split_and!; [done|by apply multiply_mask_direct|done|].
  intros x y z Hx Hy Hz.
  exists (np.item subj [x; y; z]), (np.item mask [x; y; z]). split_and!.
  - apply getitem_item; [done|]. rewrite Hs. by apply in_bounds_3.
  - apply getitem_item; [done|]. rewrite Hm. by apply in_bounds_3.
  - rewrite (multiply_getitem _ _ _ _ Hmul)
      by (rewrite Hos; by apply in_bounds_3).
    rewrite Hm, (bcast_index_id [X; Y; Z]) by by apply in_bounds_3.
    do 2 f_equal. unfold np.item.
    rewrite squeeze_data, squeeze_shape, Hs.
    by rewrite ravel_squeezed_3.
Qed.

Lemma multiply_mask_fallback_shape subj mask out s T :
  np.shape subj = s ++ [T] → np.shape mask = s →
  np.multiply (np.squeeze subj) mask = Raise ValueError →
  multiply_mask subj mask = Ok out →
  np.shape out = np.shape subj.
Proof.
  intros Hs Hm Hfail. unfold multiply_mask. rewrite Hfail, Hs, last_snoc.
  destruct T as [|T]; [done|].
  rewrite stack_replicate by lia. intros Hmul.
  apply multiply_shape in Hmul. simpl in Hmul.
  rewrite Hs, Hm, broadcast_shapes_refl in Hmul. by injection Hmul.
Qed.

Lemma broadcast_4_3 X Y Z T s :
  1 ∉ [X; Y; Z; T] →
  np.broadcast_shapes (filter (λ n, n ≠ 1) [X; Y; Z; T]) [X; Y; Z] = Some s →
  s = [X; Y; Z; T].
Proof.
  intros Hone. rewrite !filter_cons, filter_nil.
  assert (X ≠ 1 ∧ Y ≠ 1 ∧ Z ≠ 1 ∧ T ≠ 1) as (?&?&?&?) by set_solver.
  rewrite !decide_True by done.
  unfold np.broadcast_shapes. simpl. unfold np.broadcast_dim.
  repeat case_decide; simplify_eq/=; try done; intros; simplify_eq; done.
Qed.

Lemma broadcast_rev_length r1 r2 r :
  np.broadcast_rev r1 r2 = Some r → length r = length r1 `max` length r2.
Proof.
  revert r2 r. induction r1 as [|n1 r1 IH]; intros r2 r; simpl.
  - by intros [= ->].
  - destruct r2 as [|n2 r2]; [by intros [= <-]|].
    destruct (np.broadcast_dim n1 n2) as [d|]; [|done]. simpl.
    destruct (np.broadcast_rev r1 r2) as [r'|] eqn:E; [|done].
    intros [= <-]. simpl. by rewrite (IH _ _ E).
Qed.

Lemma broadcast_shapes_length s1 s2 s :
  np.broadcast_shapes s1 s2 = Some s → length s = length s1 `max` length s2.
Proof.
  unfold np.broadcast_shapes.
  destruct (np.broadcast_rev _ _) as [r|] eqn:E; [|done].
  intros [= <-]. rewrite length_reverse, (broadcast_rev_length _ _ _ E).
  by rewrite !length_reverse.
Qed.

(** C2, as amended: with a mask of shape (X,Y,Z), the output of a
    valid run has the shape of the subject when the subject has shape
    (X,Y,Z) with its axes of length one all first, when it has shape
    (X,Y,Z,T) with no axis of length one, and when it has shape
    (X,Y,Z,T) and the fallback is taken.  A subject of shape (X,Y,Z,1)
    is collapsed: whenever the direct product succeeds the output has
    three axes, so not the shape of the subject, and it has shape
    (X,Y,Z) when the axes of length one among X, Y, Z all come first. *)
Theorem output_shape subj mask out X Y Z :
  np.shape mask = [X; Y; Z] → multiply_mask subj mask = Ok out →
  (np.shape subj = [X; Y; Z] → leading_ones X Y Z →
     np.shape out = np.shape subj)
  ∧ (∀ T, np.shape subj = [X; Y; Z; T] → 1 ∉ [X; Y; Z; T] →
       np.shape out = np.shape subj)
  ∧ (∀ T, np.shape subj = [X; Y; Z; T] →
       np.multiply (np.squeeze subj) mask = Raise ValueError →
       np.shape out = np.shape subj)
  ∧ (np.shape subj = [X; Y; Z; 1] →
       (∀ o, np.multiply (np.squeeze subj) mask = Ok o →
             length (np.shape out) = 3 ∧ np.shape out ≠ np.shape subj)
       ∧ (leading_ones X Y Z → np.shape out = [X; Y; Z])).
Proof.
  intros Hm Hout. split_and!.
  - intros Hs Hlead.
    destruct (multiply_Ok_inv (np.squeeze subj) mask [X; Y; Z])
      as (o & Hmul & Hos).
    { rewrite squeeze_shape, Hs, Hm. by apply broadcast_squeezed_3. }
    rewrite (multiply_mask_direct _ _ _ Hmul) in Hout.
    injection Hout as <-. by rewrite Hs.
  - intros T Hs Hone.
    destruct (np.multiply (np.squeeze subj) mask) as [o|e] eqn:Hmul.
    + rewrite (multiply_mask_direct _ _ _ Hmul) in Hout. simplify_eq.
      apply multiply_shape in Hmul.
      rewrite squeeze_shape, Hs, Hm in Hmul. rewrite Hs.
      by apply broadcast_4_3.
    + pose proof (multiply_Raise _ _ _ Hmul) as [-> _].
      by apply (multiply_mask_fallback_shape subj mask out [X; Y; Z] T).
  - intros T Hs Hfail.
    by apply (multiply_mask_fallback_shape subj mask out [X; Y; Z] T).
  - intros Hs. split.
    + intros o Hmul.
      rewrite (multiply_mask_direct _ _ _ Hmul) in Hout. injection Hout as <-.
      apply multiply_shape, broadcast_shapes_length in Hmul.
      rewrite squeeze_shape, Hs, Hm in Hmul.
      assert (length (filter (λ n, n ≠ 1) [X; Y; Z; 1]) ≤ 3) as Hle.
      { rewrite !filter_cons, filter_nil.
        rewrite (decide_False (P:=1 ≠ 1)) by (by intros []).
        repeat case_decide; simpl; lia. }
      assert (length (np.shape o) = 3) as Hlen by (simpl in Hmul; lia).
      split; [done|]. rewrite Hs. intros Heq. by rewrite Heq in Hlen.
    + intros Hlead.
      destruct (multiply_Ok_inv (np.squeeze subj) mask [X; Y; Z])
        as (o & Hmul & Hos).
      { rewrite squeeze_shape, Hs, Hm.
        by rewrite <- (broadcast_squeezed_3 X Y Z Hlead). }
      rewrite (multiply_mask_direct _ _ _ Hmul) in Hout.
      by injection Hout as <-.
Qed.

(** ** Further properties of the masked multiplication *)

(** A time series on the grid of the mask is always multiplied: one of
    the two paths of [multiply_mask] returns. *)
Theorem multiply_mask_4d_returns subj mask X Y Z T :
  np.shape subj = [X; Y; Z; T] → np.shape mask = [X; Y; Z] → 0 < T →
  ∃ out, multiply_mask subj mask = Ok out.
Proof.
  intros Hs Hm HT.
  destruct (np.multiply (np.squeeze subj) mask) as [o|e] eqn:Hmul.
  - exists o. by apply multiply_mask_direct.
  - pose proof (multiply_Raise _ _ _ Hmul) as [-> _].
    pose proof (stack_replicate T mask HT) as Hst.
    destruct (multiply_Ok_inv subj (np.mk_ndarray (np.shape mask ++ [T])
                (flat_map (λ j, replicate T (default dzero (np.data mask !! j)))
                          (seq 0 (np.size (np.shape mask))))) [X; Y; Z; T])
      as (out & Hout & _).
    { simpl. rewrite Hs, Hm. apply broadcast_shapes_refl. }
    exists out. rewrite <- Hout.
    apply multiply_mask_fallback with T; [done| |done]. by rewrite Hs.
Qed.

(** When the four axes of the subject and the three of the mask all
    have one length n (not 1), the direct product does not raise: numpy
    aligns the mask on the last three axes, and the output at
    [x,y,z,t] is the subject times the mask at [y,z,t]. *)
Theorem multiply_mask_cubic subj mask n :
  np.wf subj → np.wf mask →
  np.shape subj = [n; n; n; n] → np.shape mask = [n; n; n] → n ≠ 1 →
  ∃ out,
    np.multiply (np.squeeze subj) mask = Ok out
    ∧ multiply_mask subj mask = Ok out
    ∧ np.shape out = [n; n; n; n]
    ∧ ∀ x y z t, x < n → y < n → z < n → t < n →
        ∃ s m, np.getitem subj [x; y; z; t] = Some s
               ∧ np.getitem mask [y; z; t] = Some m
               ∧ np.getitem out [x; y; z; t] = Some (dmul s m).
Proof.
  intros Hws Hwm Hs Hm Hn.
  assert (np.squeeze subj = subj) as Hsq.
  { apply squeeze_id. rewrite Hs. rewrite !not_elem_of_cons.
    split_and!; [done..|apply not_elem_of_nil]. }
  rewrite Hsq.
  destruct (multiply_Ok_inv subj mask [n; n; n; n]) as (out & Hmul & Hos).
  { rewrite Hs, Hm. unfold np.broadcast_shapes. simpl.
    by rewrite !broadcast_dim_refl. }
  exists out. split_and!; [done| |done|].
  { apply multiply_mask_direct. by rewrite Hsq. }
  intros x y z t Hx Hy Hz Ht.
  exists (np.item subj [x; y; z; t]), (np.item mask [y; z; t]). split_and!.
  - apply getitem_item; [done|]. rewrite Hs. by apply in_bounds_4.
  - apply getitem_item; [done|]. rewrite Hm. by apply in_bounds_3.
  - rewrite (multiply_getitem _ _ _ _ Hmul)
      by (rewrite Hos; by apply in_bounds_4).
    rewrite Hs, Hm. rewrite bcast_index_id by by apply in_bounds_4.
    do 2 f_equal. unfold np.item. rewrite Hm. f_equal. f_equal.
    unfold np.bcast_index. simpl. by rewrite !decide_False by done.
Qed.

Lemma ravel_squeezed_4 X Y Z x y z :
  leading_ones X Y Z → x < X → y < Y → z < Z →
  np.ravel (filter (λ n, n ≠ 1) [X; Y; Z; 1])
           (np.bcast_index (filter (λ n, n ≠ 1) [X; Y; Z; 1]) [x; y; z])
  = np.ravel [X; Y; Z; 1] [x; y; z; 0].
Proof.
  intros [HY HZ] Hx Hy Hz. rewrite !filter_cons, filter_nil.
  unfold np.bcast_index.
  repeat case_decide; simpl; repeat case_decide; simplify_eq/=; lia.
Qed.

(** A subject with one frame, of shape (X,Y,Z,1), and a mask of shape
    (X,Y,Z) whose axes of length one all come first: the direct path is
    taken and the output, of shape (X,Y,Z), is the product of the frame
    and the mask. *)
Theorem multiply_mask_single_frame subj mask X Y Z :
  np.wf subj → np.wf mask →
  np.shape subj = [X; Y; Z; 1] → np.shape mask = [X; Y; Z] →
  leading_ones X Y Z →
  ∃ out,
    np.multiply (np.squeeze subj) mask = Ok out
    ∧ multiply_mask subj mask = Ok out
    ∧ np.shape out = [X; Y; Z]
    ∧ ∀ x y z, x < X → y < Y → z < Z →
        ∃ s m, np.getitem subj [x; y; z; 0] = Some s
               ∧ np.getitem mask [x; y; z] = Some m
               ∧ np.getitem out [x; y; z] = Some (dmul s m).
Proof.
  intros Hws Hwm Hs Hm Hlead.
  destruct (multiply_Ok_inv (np.squeeze subj) mask [X; Y; Z])
    as (out & Hmul & Hos).
  { rewrite squeeze_shape, Hs, Hm.
    by rewrite <- (broadcast_squeezed_3 X Y Z Hlead). }
  exists out. split_and!; [done|by apply multiply_mask_direct|done|].
  intros x y z Hx Hy Hz.
  exists (np.item subj [x; y; z; 0]), (np.item mask [x; y; z]). split_and!.
  - apply getitem_item; [done|]. rewrite Hs. apply in_bounds_4; lia.
  - apply getitem_item; [done|]. rewrite Hm. by apply in_bounds_3.
  - rewrite (multiply_getitem _ _ _ _ Hmul)
      by (rewrite Hos; by apply in_bounds_3).
    rewrite Hm, (bcast_index_id [X; Y; Z]) by by apply in_bounds_3.
    do 2 f_equal. unfold np.item.
    rewrite squeeze_data, squeeze_shape, Hs.
    by rewrite ravel_squeezed_4.
Qed.

(** A 3D subject of shape (Y,Z,T) and a mask of shape (X,Y,Z) with
    T and Z different and neither 1: the direct product raises, and the
    fallback does not; it returns a 4D output of shape (X,Y,Z,T) with
    subject[y,z,t] * mask[x,y,z] at [x,y,z,t]. *)
Theorem multiply_mask_shifted_grid subj mask X Y Z T :
  np.wf subj → np.wf mask →
  np.shape subj = [Y; Z; T] → np.shape mask = [X; Y; Z] →
  T ≠ Z → T ≠ 1 → Z ≠ 1 → 0 < T →
  np.multiply (np.squeeze subj) mask = Raise ValueError
  ∧ ∃ out,
      multiply_mask subj mask = Ok out
      ∧ np.shape out = [X; Y; Z; T]
      ∧ ∀ x y z t, x < X → y < Y → z < Z → t < T →
          ∃ s m, np.getitem subj [y; z; t] = Some s
                 ∧ np.getitem mask [x; y; z] = Some m
                 ∧ np.getitem out [x; y; z; t] = Some (dmul s m).
Proof.
  intros Hws Hwm Hs Hm HTZ HT1 HZ1 HT.
  assert (np.multiply (np.squeeze subj) mask = Raise ValueError) as Hfail.
  { unfold np.multiply. rewrite squeeze_shape, Hs, Hm.
    rewrite !filter_cons, filter_nil.
    rewrite (decide_True (P:=T ≠ 1)), (decide_True (P:=Z ≠ 1)) by done.
    unfold np.broadcast_shapes.
    case_decide; simpl; unfold np.broadcast_dim;
      (destruct (decide (T = Z)); [done|]);
      (destruct (decide (T = 1)); [done|]);
      (destruct (decide (Z = 1)); [done|]); done. }
  split; [done|].
  pose proof (stack_replicate T mask HT) as Hst.
  set (tmpdata := np.mk_ndarray _ _) in Hst.
  assert (np.shape tmpdata = [X; Y; Z; T]) as Hts by (simpl; by rewrite Hm).
  destruct (multiply_Ok_inv subj tmpdata [X; Y; Z; T]) as (out & Hmul & Hos).
  { rewrite Hs, Hts. unfold np.broadcast_shapes. simpl.
    by rewrite !broadcast_dim_refl. }
  exists out. split_and!; [|done|].
  { rewrite <- Hmul. apply multiply_mask_fallback with T; [done| |done].
    by rewrite Hs. }
  intros x y z t Hx Hy Hz Ht.
  exists (np.item subj [y; z; t]), (np.item mask [x; y; z]). split_and!.
  - apply getitem_item; [done|]. rewrite Hs. by apply in_bounds_3.
  - apply getitem_item; [done|]. rewrite Hm. by apply in_bounds_3.
  - rewrite (multiply_getitem _ _ _ _ Hmul)
      by (rewrite Hos; by apply in_bounds_4).
    rewrite Hs, Hts. rewrite (bcast_index_id [X; Y; Z; T])
      by by apply in_bounds_4.
    f_equal. f_equal.
    + unfold np.item. rewrite Hs. do 2 f_equal.
      change (np.bcast_index [Y; Z; T] [x; y; z; t])
        with (np.bcast_index [Y; Z; T] [y; z; t]).
      by rewrite bcast_index_id by by apply in_bounds_3.
    + change [x; y; z; t] with ([x; y; z] ++ [t]).
      apply item_stack_replicate with T; [done| |done].
      rewrite Hm. by apply in_bounds_3.
Qed.


End multiply_mask_facts.

(** * Facts about file names *)

Section filename_facts.
Import filename_parser.

Lemma str_app_cons c (s t : string) : String c s +:+ t = String c (s +:+ t).
Proof. done. Qed.

Lemma str_app_nil_r (s : string) : s +:+ "" = s.
Proof.
  induction s as [|c s IH]; [done|]. by rewrite str_app_cons, IH.
Qed.

Lemma str_app_assoc (s t u : string) : (s +:+ t) +:+ u = s +:+ (t +:+ u).
Proof.
  induction s as [|c s IH]; [done|]. by rewrite !str_app_cons, IH.
Qed.

Lemma str_app_length (s t : string) :
  String.length (s +:+ t) = String.length s + String.length t.
Proof.
  induction s as [|c s IH]; [done|]. rewrite str_app_cons. simpl.
  by rewrite IH.
Qed.

Lemma str_map_length f (s : string) :
  String.length (str_map f s) = String.length s.
Proof. induction s as [|c s IH]; simpl; [done|]. by rewrite IH. Qed.

(** An extension is looked for at the end of a name only. *)
Lemma isplit_app ext (s t : string) :
  String.length ext ≤ String.length t →
  isplit ext (s +:+ t) = prod_map (String.app s) id <$> isplit ext t.
Proof.
  intros Hlen. induction s as [|c s IH].
  - change ("" +:+ t) with t. by destruct (isplit ext t) as [[]|].
  - rewrite str_app_cons. unfold isplit at 1; fold isplit.
    replace (String.eqb (lower (String c (s +:+ t))) (lower ext))
      with false.
    { rewrite IH. by destruct (isplit ext t) as [[]|]. }
    symmetry. apply String.eqb_neq. intros Heq.
    apply (f_equal String.length) in Heq. unfold lower in Heq.
    rewrite !str_map_length in Heq. simpl in Heq.
    rewrite str_app_length in Heq. lia.
Qed.

(** nibabel writes a name that ends in [.nii] or in [.nii.gz] under
    that very name. *)
Lemma types_filenames_nii (s : string) :
  types_filenames (s +:+ ".nii") = Some (s +:+ ".nii").
Proof.
  unfold types_filenames.
  rewrite (isplit_app "." s ".nii") by (simpl; lia).
  change (isplit "." ".nii") with (@None (string * string)). simpl.
  rewrite (isplit_app ".gz" s ".nii") by (simpl; lia).
  change (isplit ".gz" ".nii") with (@None (string * string)). simpl.
  rewrite (isplit_app ".bz2" s ".nii") by (simpl; lia).
  change (isplit ".bz2" ".nii") with (@None (string * string)). simpl.
  rewrite (isplit_app ".nii" s ".nii") by (simpl; lia).
  change (isplit ".nii" ".nii") with (Some ("", ".nii")). simpl.
  change (proc_ext ".nii" ".nii") with ".nii".
  by rewrite !str_app_nil_r.
Qed.

Lemma types_filenames_nii_gz (s : string) :
  types_filenames (s +:+ ".nii.gz") = Some (s +:+ ".nii.gz").
Proof.
  unfold types_filenames.
  rewrite (isplit_app "." s ".nii.gz") by (simpl; lia).
  change (isplit "." ".nii.gz") with (@None (string * string)). simpl.
  rewrite (isplit_app ".gz" s ".nii.gz") by (simpl; lia).
  change (isplit ".gz" ".nii.gz") with (Some (".nii", ".gz")). simpl.
  rewrite (isplit_app ".nii" s ".nii") by (simpl; lia).
  change (isplit ".nii" ".nii") with (Some ("", ".nii")). simpl.
  change (proc_ext ".nii" ".nii") with ".nii".
  by rewrite str_app_nil_r.
Qed.

End filename_facts.

(** * Facts about the pipeline *)

Section pipeline_facts.
Context {voxel : Type} `{Dtype voxel} {affine header xfm : Type}.
Context {ext : @Externals voxel affine header xfm}.

#[local] Abbreviation world := (@world voxel affine header xfm).
#[local] Abbreviation image := (@image voxel affine header).
#[local] Abbreviation file := (@file voxel affine header xfm).
#[local] Abbreviation event := (@event voxel affine header).
#[local] Abbreviation M := (@M voxel affine header xfm).
#[local] Abbreviation types_filenames := filename_parser.types_filenames.
#[local] Abbreviation image_filename := filename_parser.image_filename.
Implicit Types (w : world) (p q : string) (img : image).

(** *** The monad *)

Lemma bind_Ok_inv {T U} (m : M T) (f : T → M U) w u w' :
  (m ≫= f) w = (Ok u, w') →
  ∃ a w1, m w = (Ok a, w1) ∧ f a w1 = (Ok u, w').
Proof.
  unfold mbind, M_bind. destruct (m w) as [[a|e] w1]; [eauto|done].
Qed.

Lemma bind_Raise_inv {T U} (m : M T) (f : T → M U) w e w' :
  (m ≫= f) w = (Raise e, w') →
  m w = (Raise e, w') ∨ ∃ a w1, m w = (Ok a, w1) ∧ f a w1 = (Raise e, w').
Proof.
  unfold mbind, M_bind. destruct (m w) as [[a|e1] w1]; [eauto|].
  intros [= -> ->]. by left.
Qed.

Lemma bind_Ok {T U} (m : M T) (f : T → M U) w a w1 :
  m w = (Ok a, w1) → (m ≫= f) w = f a w1.
Proof. unfold mbind, M_bind. by intros ->. Qed.

Lemma bind_Raise {T U} (m : M T) (f : T → M U) w e w1 :
  m w = (Raise e, w1) → (m ≫= f) w = (Raise e, w1).
Proof. unfold mbind, M_bind. by intros ->. Qed.

(** *** Files *)

Lemma load_world p w r w' : load p w = (r, w') → w' = w.
Proof.
  unfold load. destruct (files w !! p) as [[]|]; by intros [= _ <-].
Qed.

Lemma load_Ok_inv p w img w' :
  load p w = (Ok img, w') → w' = w ∧ files w !! p = Some (VolumeFile img).
Proof.
  unfold load. destruct (files w !! p) as [[]|]; intros [=]; by subst.
Qed.

Lemma load_Ok p w img :
  files w !! p = Some (VolumeFile img) → load p w = (Ok img, w).
Proof. unfold load. by intros ->. Qed.

Lemma read_matrix_Ok_inv p w m w' :
  read_matrix p w = (Ok m, w') → w' = w ∧ files w !! p = Some (MatrixFile m).
Proof.
  unfold read_matrix. destruct (files w !! p) as [[]|]; intros [=]; by subst.
Qed.

Lemma read_matrix_world p w r w' : read_matrix p w = (r, w') → w' = w.
Proof.
  unfold read_matrix. destruct (files w !! p) as [[]|]; by intros [= _ <-].
Qed.

Lemma first_free_Some (fs : gmap string file) names n rest :
  first_free fs names = Some (n, rest) → fs !! n = None.
Proof.
  induction names as [|x names IH]; simpl; [done|].
  case_decide as Hx; [done|]. intros [= -> ->].
  by apply eq_None_not_Some.
Qed.

Lemma mkstemp_Ok_inv w n w' :
  mkstemp w = (Ok n, w') →
  files w !! n = None
  ∧ files w' = <[n := EmptyFile]> (files w)
  ∧ trace w' = trace w ++ [EvMkstemp n].
Proof.
  unfold mkstemp. destruct (first_free _ _) as [[n' rest]|] eqn:Hf; [|done].
  intros [= -> <-]. simpl. eauto using first_free_Some.
Qed.


Lemma to_filename_Ok img p fname w :
  types_filenames p = Some fname →
  to_filename img p w
  = (Ok tt, World (<[fname := VolumeFile img]> (files w)) (tmpnames w)
                  (trace w ++ [EvSave fname img])).
Proof. unfold to_filename. by intros ->. Qed.

Lemma to_filename_Ok_inv img p w w' :
  to_filename img p w = (Ok tt, w') →
  types_filenames p = Some (image_filename p)
  ∧ w' = World (<[image_filename p := VolumeFile img]> (files w)) (tmpnames w)
               (trace w ++ [EvSave (image_filename p) img]).
Proof.
  unfold to_filename, filename_parser.image_filename.
  destruct (filename_parser.types_filenames p) as [fname|]; [|done].
  by intros [= <-].
Qed.

Lemma to_filename_Raise_inv img p w e w' :
  to_filename img p w = (Raise e, w') →
  types_filenames p = None ∧ e = ImageFileError ∧ w' = w.
Proof.
  unfold to_filename.
  destruct (filename_parser.types_filenames p) as [fname|]; [done|].
  by intros [= <- <-].
Qed.

(** What [Nifti1Image] makes of the header it is given. *)
Lemma Nifti1Image_header (d : np.ndarray voxel) (a : affine)
    (hdr : @Nifti1Header header) :
  get_header (Nifti1Image d a hdr) = set_data_shape hdr (np.shape d).
Proof. done. Qed.

Lemma set_data_shape_same img :
  set_data_shape (get_header img) (np.shape (get_data img)) = get_header img.
Proof. done. Qed.

Lemma remove_Ok_inv p w w' :
  remove p w = (Ok tt, w') →
  files w' = delete p (files w) ∧ tmpnames w' = tmpnames w
  ∧ trace w' = trace w ++ [EvRemove p].
Proof.
  unfold remove. destruct (files w !! p); [|done]. by intros [= <-].
Qed.

(** *** pydeface.utils *)

Lemma initial_checks_world t f w r w' :
  initial_checks t f w = (r, w') → w' = w.
Proof.
  unfold initial_checks, mbind, M_bind.
  destruct (load _ w) as [[]] eqn:H1; apply load_world in H1 as ->;
    [|by intros [= _ <-]].
  destruct (load _ w) as [[]] eqn:H2; apply load_world in H2 as ->;
    by intros [= _ <-].
Qed.

Lemma output_checks_world i o f w r w' :
  output_checks i o f w = (r, w') → w' = w.
Proof.
  unfold output_checks, mbind, M_bind, exists_. simpl.
  destruct (_ && _); by intros [= _ <-].
Qed.

Lemma output_checks_Ok_inv i o f w out w' :
  output_checks i o f w = (Ok out, w') →
  out = default (default_outfile i) o
  ∧ (is_Some (files w !! out) → f = true).
Proof.
  unfold output_checks, mbind, M_bind, exists_. simpl.
  destruct (bool_decide _ && _) eqn:Hb; [done|]. intros [= <- <-].
  split; [done|]. intros Hs. rewrite bool_decide_eq_true_2 in Hb by done.
  by destruct f.
Qed.

Lemma output_checks_exists i o w :
  is_Some (files w !! default (default_outfile i) o) →
  output_checks i o false w = (Raise OutputExists, w).
Proof.
  intros Hs. unfold output_checks, mbind, M_bind, exists_. simpl.
  by rewrite bool_decide_eq_true_2.
Qed.

Lemma output_checks_force i o w :
  output_checks i o true w = (Ok (default (default_outfile i) o), w).
Proof.
  unfold output_checks, mbind, M_bind, exists_. simpl.
  by rewrite andb_false_r.
Qed.

Lemma output_checks_free i o f w :
  files w !! default (default_outfile i) o = None →
  output_checks i o f w = (Ok (default (default_outfile i) o), w).
Proof.
  intros Hn. unfold output_checks, mbind, M_bind, exists_. simpl.
  rewrite bool_decide_eq_false_2; [done|]. rewrite Hn. by intros [? ?].
Qed.

(** *** Traces *)

Lemma saves_app (t1 t2 : list event) : saves (t1 ++ t2) = saves t1 ++ saves t2.
Proof. apply omap_app. Qed.

Lemma flirts_app (t1 t2 : list event) :
  flirts (t1 ++ t2) = flirts t1 ++ flirts t2.
Proof. apply omap_app. Qed.

(** *** Temporary files *)

Lemma temporary_files_Ok_inv v w tmp w1 :
  temporary_files v w = (Ok tmp, w1) →
  ∃ a b,
    template_reg_mat tmp = a +:+ ".mat"
    ∧ warped_mask tmp = b +:+ ".nii.gz"
    ∧ files w1 = <[warped_mask_mat tmp := EmptyFile]>
                   (<[template_reg tmp := EmptyFile]>
                      (<[b := EmptyFile]> (<[a := EmptyFile]> (files w))))
    ∧ files w !! a = None ∧ files w !! b = None
    ∧ files w !! template_reg tmp = None
    ∧ files w !! warped_mask_mat tmp = None
    ∧ saves (trace w1) = saves (trace w)
    ∧ flirts (trace w1) = flirts (trace w).
Proof.
  intros Hrun. unfold temporary_files in Hrun.
  apply bind_Ok_inv in Hrun as (a & wa & Ha & Hrun).
  apply bind_Ok_inv in Hrun as (b & wb & Hb & Hrun).
  apply bind_Ok_inv in Hrun as ([] & wp & Hp & Hrun).
  apply bind_Ok_inv in Hrun as (c & wc & Hc & Hrun).
  apply bind_Ok_inv in Hrun as (d & wd & Hd & Hrun).
  injection Hrun as <- <-. simpl.
  apply mkstemp_Ok_inv in Ha as (Hfa & Ha & Hta).
  apply mkstemp_Ok_inv in Hb as (Hfb & Hb & Htb).
  apply mkstemp_Ok_inv in Hc as (Hfc & Hc & Htc).
  apply mkstemp_Ok_inv in Hd as (Hfd & Hd & Htd).
  assert (files wp = files wb ∧ saves (trace wp) = saves (trace wb)
          ∧ flirts (trace wp) = flirts (trace wb)) as (Hpf & Hps & Hpl).
  { destruct v; injection Hp as <-; simpl; [|done].
    by rewrite saves_app, flirts_app, !app_nil_r. }
  rewrite Hpf in *. rewrite Hb in *. rewrite Ha in *. rewrite Hc in *.
  apply lookup_insert_None in Hfb as [Hfb ?].
  apply lookup_insert_None in Hfc as [Hfc ?].
  apply lookup_insert_None in Hfc as [Hfc ?].
  apply lookup_insert_None in Hfd as [Hfd ?].
  apply lookup_insert_None in Hfd as [Hfd ?].
  apply lookup_insert_None in Hfd as [Hfd ?].
  exists a, b. split_and!; try done.
  - rewrite Htd, Htc, saves_app, saves_app, Hps, Htb, Hta, !saves_app.
    simpl. by rewrite !app_nil_r.
  - rewrite Htd, Htc, flirts_app, flirts_app, Hpl, Htb, Hta, !flirts_app.
    simpl. by rewrite !app_nil_r.
Qed.

(** Temporary files are new: what was on disk stays as it was. *)
Lemma temporary_files_keeps v w tmp w1 p :
  temporary_files v w = (Ok tmp, w1) → is_Some (files w !! p) →
  files w1 !! p = files w !! p
  ∧ p ≠ template_reg tmp ∧ p ≠ warped_mask_mat tmp.
Proof.
  intros Hrun [f Hf].
  apply temporary_files_Ok_inv in Hrun
    as (a & b & _ & _ & -> & Ha & Hb & Hc & Hd & _).
  assert (p ≠ a ∧ p ≠ b ∧ p ≠ template_reg tmp ∧ p ≠ warped_mask_mat tmp)
    as (?&?&?&?) by (split_and!; congruence).
  by rewrite !lookup_insert_ne.
Qed.

(** All that the allocation puts on disk is empty files. *)
Lemma temporary_files_adds v w tmp w1 p :
  temporary_files v w = (Ok tmp, w1) →
  files w1 !! p = files w !! p ∨ files w1 !! p = Some EmptyFile.
Proof.
  intros Hrun.
  apply temporary_files_Ok_inv in Hrun as (a & b & _ & _ & -> & _).
  rewrite !lookup_insert. repeat case_decide; eauto.
Qed.

(** *** The registration adapter *)

Lemma flirt_run_trace inputs w r w' :
  flirt_run inputs w = (r, w') →
  trace w' = trace w ++ [EvFlirt inputs] ∧ tmpnames w' = tmpnames w.
Proof.
  unfold flirt_run, emit, mbind, M_bind. simpl.
  set (we := World _ _ _).
  destruct (load (fsl.in_file inputs) we) as [[moving|] w1] eqn:H1;
    apply load_world in H1 as ->; [|by intros [= _ <-]].
  destruct (load (fsl.reference inputs) we) as [[ref|] w1] eqn:H2;
    apply load_world in H2 as ->; [|by intros [= _ <-]].
  destruct (fsl.in_matrix_file inputs) as [pm|].
  - destruct (read_matrix pm we) as [[m|] w1] eqn:H3;
      apply read_matrix_world in H3 as ->; [|by intros [= _ <-]].
    simpl. destruct (flirt_engine _) as [[out mat]|]; by intros [= _ <-].
  - simpl. destruct (flirt_engine _) as [[out mat]|]; by intros [= _ <-].
Qed.

Lemma flirt_run_Raise_inv inputs w e w' :
  flirt_run inputs w = (Raise e, w') → files w' = files w.
Proof.
  unfold flirt_run, emit, mbind, M_bind. simpl.
  set (we := World _ _ _).
  destruct (load (fsl.in_file inputs) we) as [[moving|] w1] eqn:H1;
    apply load_world in H1 as ->; [|by intros [= _ <-]].
  destruct (load (fsl.reference inputs) we) as [[ref|] w1] eqn:H2;
    apply load_world in H2 as ->; [|by intros [= _ <-]].
  destruct (fsl.in_matrix_file inputs) as [pm|].
  - destruct (read_matrix pm we) as [[m|] w1] eqn:H3;
      apply read_matrix_world in H3 as ->; [|by intros [= _ <-]].
    simpl. destruct (flirt_engine _) as [[out mat]|]; [done|by intros [= _ <-]].
  - simpl. destruct (flirt_engine _) as [[out mat]|]; [done|by intros [= _ <-]].
Qed.

Lemma flirt_run_Ok_inv inputs w w' :
  flirt_run inputs w = (Ok tt, w') →
  ∃ moving ref init out mat,
    files w !! fsl.in_file inputs = Some (VolumeFile moving)
    ∧ files w !! fsl.reference inputs = Some (VolumeFile ref)
    ∧ flirt_engine (Query (fsl.cost_func inputs) moving ref init
                          (fsl.apply_xfm inputs)) = Some (out, mat)
    ∧ files w' = <[fsl.out_matrix_file inputs := MatrixFile mat]>
                   (<[fsl.out_file inputs := VolumeFile out]> (files w)).
Proof.
  unfold flirt_run, emit, mbind, M_bind. simpl.
  set (we := World _ _ _).
  destruct (load (fsl.in_file inputs) we) as [[moving|] w1] eqn:H1; [|done].
  apply load_Ok_inv in H1 as [-> H1].
  destruct (load (fsl.reference inputs) we) as [[ref|] w1] eqn:H2; [|done].
  apply load_Ok_inv in H2 as [-> H2].
  destruct (fsl.in_matrix_file inputs) as [pm|].
  - destruct (read_matrix pm we) as [[m|] w1] eqn:H3; [|done].
    apply read_matrix_world in H3 as ->. simpl.
    destruct (flirt_engine _) as [[out mat]|] eqn:He; [|done].
    intros [= <-]. by exists moving, ref, (Some m), out, mat.
  - simpl. destruct (flirt_engine _) as [[out mat]|] eqn:He; [|done].
    intros [= <-]. by exists moving, ref, None, out, mat.
Qed.

(** A run of the engine that fails, spelled out. *)
Lemma flirt_run_engine_fails inputs w moving ref :
  fsl.in_matrix_file inputs = None →
  files w !! fsl.in_file inputs = Some (VolumeFile moving) →
  files w !! fsl.reference inputs = Some (VolumeFile ref) →
  flirt_engine (Query (fsl.cost_func inputs) moving ref None
                      (fsl.apply_xfm inputs)) = None →
  flirt_run inputs w
  = (Raise RuntimeError,
     World (files w) (tmpnames w) (trace w ++ [EvFlirt inputs])).
Proof.
  intros Hm H1 H2 He. unfold flirt_run.
  set (we := World (files w) (tmpnames w) (trace w ++ [EvFlirt inputs])).
  rewrite (bind_Ok _ _ w tt we) by done.
  rewrite (bind_Ok _ _ we moving we) by by apply load_Ok.
  rewrite (bind_Ok _ _ we ref we) by by apply load_Ok.
  rewrite Hm. rewrite (bind_Ok _ _ we None we) by done.
  by rewrite He.
Qed.

(** *** deface_image *)

(** The inputs of the two registration calls. *)
#[local] Abbreviation estimate args template tmp :=
  {| fsl.cost_func := Some (Namespace.cost args);
     fsl.in_file := template;
     fsl.in_matrix_file := None;
     fsl.apply_xfm := false;
     fsl.reference := Namespace.infile args;
     fsl.out_file := template_reg tmp;
     fsl.out_matrix_file := template_reg_mat tmp |}.

#[local] Abbreviation warp args facemask tmp :=
  {| fsl.cost_func := None;
     fsl.in_file := facemask;
     fsl.in_matrix_file := Some (template_reg_mat tmp);
     fsl.apply_xfm := true;
     fsl.reference := Namespace.infile args;
     fsl.out_file := warped_mask tmp;
     fsl.out_matrix_file := warped_mask_mat tmp |}.

#[local] Abbreviation cleanup args tmp :=
  (if Namespace.nocleanup args
   then mret tt
   else remove (warped_mask tmp);;
        remove (template_reg tmp);;
        remove (template_reg_mat tmp)).

#[local] Abbreviation announced args w1 :=
  (World (files w1) (tmpnames w1)
     (trace w1 ++ [EvPrint ("Defacing..." +:+ nl +:+ "  "
                            +:+ Namespace.infile args)])).

Lemma deface_image_Ok_inv args w m w' :
  deface_image args w = (Ok m, w') →
  ∃ template facemask outfile tmp w1 w2 w3 infile_img outdata w5,
    initial_checks (Namespace.template args) (Namespace.facemask args) w
      = (Ok (template, facemask), w)
    ∧ output_checks (Namespace.infile args) (Namespace.outfile args)
                    (Namespace.force args) w = (Ok outfile, w)
    ∧ temporary_files (Namespace.verbose args) w = (Ok tmp, w1)
    ∧ flirt_run (estimate args template tmp) (announced args w1) = (Ok tt, w2)
    ∧ flirt_run (warp args facemask tmp) w2 = (Ok tt, w3)
    ∧ files w3 !! Namespace.infile args = Some (VolumeFile infile_img)
    ∧ files w3 !! warped_mask tmp = Some (VolumeFile m)
    ∧ multiply_mask (get_data infile_img) (get_data m) = Ok outdata
    ∧ cleanup args tmp
        (World (<[image_filename outfile := VolumeFile
                    (Nifti1Image outdata (get_affine infile_img)
                                 (get_header infile_img))]> (files w3))
               (tmpnames w3)
               (trace w3 ++ [EvSave (image_filename outfile)
                    (Nifti1Image outdata (get_affine infile_img)
                                 (get_header infile_img))]))
        = (Ok tt, w5)
    ∧ w' = World (files w5) (tmpnames w5)
             (trace w5 ++ [EvPrint ("Defaced image saved as:" +:+ nl
                                    +:+ "  " +:+ outfile)]).
Proof.
  intros Hrun. unfold deface_image in Hrun.
  apply bind_Ok_inv in Hrun as ([template facemask] & wi & Hi & Hrun).
  pose proof (initial_checks_world _ _ _ _ _ Hi) as ->.
  apply bind_Ok_inv in Hrun as (outfile & wo & Ho & Hrun).
  pose proof (output_checks_world _ _ _ _ _ _ Ho) as ->.
  apply bind_Ok_inv in Hrun as (tmp & w1 & Ht & Hrun).
  apply bind_Ok_inv in Hrun as ([] & wp & Hp & Hrun).
  injection Hp as <-.
  apply bind_Ok_inv in Hrun as ([] & w2 & Ha & Hrun).
  apply bind_Ok_inv in Hrun as ([] & w3 & Hb & Hrun).
  apply bind_Ok_inv in Hrun as (infile_img & wl & Hl & Hrun).
  apply load_Ok_inv in Hl as [-> Hl].
  apply bind_Ok_inv in Hrun as (mask & wl & Hm & Hrun).
  apply load_Ok_inv in Hm as [-> Hm].
  apply bind_Ok_inv in Hrun as (outdata & wl & Hd & Hrun).
  injection Hd as Hd <-.
  apply bind_Ok_inv in Hrun as ([] & w4 & Hs & Hrun).
  apply to_filename_Ok_inv in Hs as [_ ->].
  apply bind_Ok_inv in Hrun as ([] & w5 & Hc & Hrun).
  apply bind_Ok_inv in Hrun as ([] & w6 & Hq & Hrun).
  injection Hq as <-. injection Hrun as <- <-.
  by exists template, facemask, outfile, tmp, w1, w2, w3, infile_img,
            outdata, w5.
Qed.

Lemma cleanup_Ok_inv args tmp w4 w5 :
  cleanup args tmp w4 = (Ok tt, w5) →
  saves (trace w5) = saves (trace w4)
  ∧ flirts (trace w5) = flirts (trace w4)
  ∧ (if Namespace.nocleanup args then files w5 = files w4
     else files w5 = delete (template_reg_mat tmp)
                       (delete (template_reg tmp)
                          (delete (warped_mask tmp) (files w4)))).
Proof.
  destruct (Namespace.nocleanup args).
  - by intros [= <-].
  - intros Hc.
    apply bind_Ok_inv in Hc as ([] & wa & Ha & Hc).
    apply bind_Ok_inv in Hc as ([] & wb & Hb & Hc).
    apply remove_Ok_inv in Ha as (Hfa & _ & Hta).
    apply remove_Ok_inv in Hb as (Hfb & _ & Htb).
    apply remove_Ok_inv in Hc as (Hfc & _ & Htc).
    rewrite Hfc, Hfb, Hfa, Htc, Htb, Hta, !saves_app, !flirts_app. simpl.
    by rewrite !app_nil_r.
Qed.

(** What the registration calls leave of a file that was there before
    the temporary files were made. *)
Lemma registration_keeps args w tmp w1 w2 w3 template facemask p :
  temporary_files (Namespace.verbose args) w = (Ok tmp, w1) →
  flirt_run (estimate args template tmp) (announced args w1) = (Ok tt, w2) →
  flirt_run (warp args facemask tmp) w2 = (Ok tt, w3) →
  is_Some (files w !! p) →
  p ≠ template_reg_mat tmp → p ≠ warped_mask tmp →
  files w3 !! p = files w !! p.
Proof.
  intros Ht Ha Hb Hp Hmat Hmask.
  destruct (temporary_files_keeps _ _ _ _ p Ht Hp) as (<- & Hreg & Hwmm).
  apply flirt_run_Ok_inv in Ha as (? & ? & ? & ? & ? & _ & _ & _ & Ha).
  apply flirt_run_Ok_inv in Hb as (? & ? & ? & ? & ? & _ & _ & _ & Hb).
  simpl in *. rewrite Hb, Ha. by rewrite !lookup_insert_ne.
Qed.

Lemma deface_image_saves args w m w' :
  deface_image args w = (Ok m, w') →
  ∃ outfile tmp w1 w3 infile_img outdata,
    output_checks (Namespace.infile args) (Namespace.outfile args)
                  (Namespace.force args) w = (Ok outfile, w)
    ∧ temporary_files (Namespace.verbose args) w = (Ok tmp, w1)
    ∧ files w3 !! Namespace.infile args = Some (VolumeFile infile_img)
    ∧ (is_Some (files w !! Namespace.infile args) →
       Namespace.infile args ≠ template_reg_mat tmp →
       Namespace.infile args ≠ warped_mask tmp →
       files w !! Namespace.infile args = Some (VolumeFile infile_img))
    ∧ multiply_mask (get_data infile_img) (get_data m) = Ok outdata
    ∧ saves (trace w')
      = saves (trace w)
        ++ [(image_filename outfile,
             Nifti1Image outdata (get_affine infile_img)
                         (get_header infile_img))]
    ∧ (Namespace.nocleanup args = true
       ∨ (image_filename outfile ≠ warped_mask tmp
          ∧ image_filename outfile ≠ template_reg tmp
          ∧ image_filename outfile ≠ template_reg_mat tmp) →
       files w' !! image_filename outfile
       = Some (VolumeFile (Nifti1Image outdata (get_affine infile_img)
                                       (get_header infile_img)))).
Proof.
  intros Hrun.
  apply deface_image_Ok_inv in Hrun
    as (template & facemask & outfile & tmp & w1 & w2 & w3 & infile_img
        & outdata & w5 & Hi & Ho & Ht & Ha & Hb & Hl & Hm & Hd & Hc & ->).
  exists outfile, tmp, w1, w3, infile_img, outdata.
  split_and!; try done.
  - intros Hp H1 H2. rewrite <- Hl. symmetry.
    by eapply registration_keeps.
  - apply cleanup_Ok_inv in Hc as (Hs & _ & _). simpl in *.
    rewrite saves_app, Hs, saves_app. simpl. rewrite app_nil_r.
    apply flirt_run_trace in Ha as [Ha _].
    apply flirt_run_trace in Hb as [Hb _].
    rewrite Hb, Ha. simpl. rewrite !saves_app. simpl.
    apply temporary_files_Ok_inv in Ht as (?&?&_&_&_&_&_&_&_&->&_).
    by rewrite !app_nil_r.
  - apply cleanup_Ok_inv in Hc as (_ & _ & Hf). simpl in *.
    intros [Hn|(H1 & H2 & H3)].
    + rewrite Hn in Hf. rewrite Hf. apply lookup_insert_eq.
    + destruct (Namespace.nocleanup args); rewrite Hf.
      * apply lookup_insert_eq.
      * rewrite !lookup_delete_ne by done. apply lookup_insert_eq.
Qed.

(** *** The loop over [args.applyto] *)

Lemma apply_mask_Ok_inv m p w w' :
  apply_mask m p w = (Ok tt, w') →
  ∃ comp outdata,
    files w !! p = Some (VolumeFile comp)
    ∧ np.multiply (get_data comp) (get_data m) = Ok outdata
    ∧ files w !! default_outfile p = None
    ∧ types_filenames (default_outfile p)
      = Some (image_filename (default_outfile p))
    ∧ w' = World (<[image_filename (default_outfile p) := VolumeFile
                      (Nifti1Image outdata (get_affine comp)
                                   (get_header comp))]> (files w))
                 (tmpnames w)
                 (trace w ++ [EvSave (image_filename (default_outfile p))
                                (Nifti1Image outdata (get_affine comp)
                                             (get_header comp));
                              EvPrint ("  " +:+ p)]).
Proof.
  intros Hrun. unfold apply_mask in Hrun.
  apply bind_Ok_inv in Hrun as (comp & wl & Hl & Hrun).
  apply load_Ok_inv in Hl as [-> Hl].
  apply bind_Ok_inv in Hrun as (outdata & wl & Hd & Hrun).
  injection Hd as Hd <-.
  apply bind_Ok_inv in Hrun as (outfile & wo & Ho & Hrun).
  pose proof (output_checks_world _ _ _ _ _ _ Ho) as ->.
  apply output_checks_Ok_inv in Ho as [-> Hfree]. simpl in *.
  apply bind_Ok_inv in Hrun as ([] & w4 & Hs & Hrun).
  apply to_filename_Ok_inv in Hs as [Hn ->].
  injection Hrun as <-. simpl.
  exists comp, outdata. split_and!; try done.
  - destruct (files w !! default_outfile p) eqn:E; [|done].
    by discriminate Hfree.
  - by rewrite <- app_assoc.
Qed.

Lemma apply_mask_Raise_inv m p w e w' :
  apply_mask m p w = (Raise e, w') → w' = w.
Proof.
  intros Hrun. unfold apply_mask in Hrun.
  apply bind_Raise_inv in Hrun as [Hl|(comp & wl & Hl & Hrun)];
    [by apply load_world in Hl|].
  apply load_world in Hl as ->.
  apply bind_Raise_inv in Hrun as [Hd|(outdata & wl & Hd & Hrun)];
    [by injection Hd|].
  injection Hd as _ <-.
  apply bind_Raise_inv in Hrun as [Ho|(outfile & wo & Ho & Hrun)];
    [by apply output_checks_world in Ho|].
  apply output_checks_world in Ho as ->.
  apply bind_Raise_inv in Hrun as [Hs|([] & w4 & Hs & Hrun)]; [|done].
  by apply to_filename_Raise_inv in Hs as (_ & _ & ->).
Qed.

Lemma for_each_app {T} (l1 l2 : list T) (body : T → M unit) w w1 :
  for_each l1 body w = (Ok tt, w1) →
  for_each (l1 ++ l2) body w = for_each l2 body w1.
Proof.
  revert w. induction l1 as [|x l1 IH]; intros w; simpl.
  - by intros [= <-].
  - intros Hrun. apply bind_Ok_inv in Hrun as ([] & wx & Hx & Hrun).
    rewrite (bind_Ok _ _ _ _ _ Hx). by apply IH.
Qed.

Lemma for_each_apply_mask_Ok m l w w1 :
  for_each l (apply_mask m) w = (Ok tt, w1) →
  (saves (trace w1)).*1
  = (saves (trace w)).*1 ++ (image_filename ∘ default_outfile <$> l)
  ∧ (∀ q img, files w !! q = Some (VolumeFile img) →
              ∃ img', files w1 !! q = Some (VolumeFile img'))
  ∧ (∀ q, q ∈ l →
       ∃ img, files w1 !! image_filename (default_outfile q)
              = Some (VolumeFile img)).
Proof.
  revert w. induction l as [|x l IH]; intros w; simpl.
  - intros [= <-]. rewrite app_nil_r. split_and!; [done|eauto|set_solver].
  - intros Hrun. apply bind_Ok_inv in Hrun as ([] & wx & Hx & Hrun).
    apply apply_mask_Ok_inv in Hx as (comp & outdata & _ & _ & _ & _ & ->).
    destruct (IH _ Hrun) as (Hs & Hkeep & Hout). simpl in *.
    split_and!.
    + rewrite Hs, saves_app. simpl. rewrite fmap_app. simpl.
      by rewrite <- app_assoc.
    + intros q img Hq.
      destruct (decide (q = image_filename (default_outfile x))) as [->|].
      * eapply Hkeep. apply lookup_insert_eq.
      * eapply Hkeep. by rewrite lookup_insert_ne.
    + intros q [->|Hq]%elem_of_cons; [|by apply Hout].
      eapply Hkeep. apply lookup_insert_eq.
Qed.

Lemma apply_mask_frame m x p f w :
  p ≠ x → p ≠ default_outfile x → p ≠ image_filename (default_outfile x) →
  apply_mask m x (with_file p f w)
  = ((apply_mask m x w).1, with_file p f (apply_mask m x w).2).
Proof.
  intros Hx Ho Hn.
  unfold apply_mask, load, output_checks, exists_, to_filename, emit, write,
    print, lift, mbind, M_bind, mret, M_ret, raise. simpl.
  rewrite !lookup_partial_alter_ne by done.
  destruct (files w !! x) as [[]|]; simpl; try done.
  destruct (np.multiply _ _); simpl; try done.
  rewrite !lookup_partial_alter_ne by done.
  unfold filename_parser.image_filename in Hn.
  destruct (files w !! default_outfile x) as [fo|].
  - by rewrite !bool_decide_eq_true_2 by eauto.
  - rewrite !bool_decide_eq_false_2 by (by intros [? ?]). simpl.
    destruct (filename_parser.types_filenames (default_outfile x))
      as [fname|]; simpl in *; [|done].
    unfold with_file. simpl. do 2 f_equal.
    by rewrite insert_partial_alter_ne.
Qed.

Lemma for_each_apply_mask_frame m l p f w r w' :
  p ∉ l → p ∉ default_outfile <$> l →
  p ∉ image_filename ∘ default_outfile <$> l →
  for_each l (apply_mask m) w = (r, w') →
  for_each l (apply_mask m) (with_file p f w) = (r, with_file p f w').
Proof.
  revert w. induction l as [|x l IH]; intros w Hl Ho Hn; simpl.
  - by intros [= <- <-].
  - apply not_elem_of_cons in Hl as [Hx Hl].
    rewrite fmap_cons in Ho. apply not_elem_of_cons in Ho as [Hox Ho].
    rewrite fmap_cons in Hn. apply not_elem_of_cons in Hn as [Hnx Hn].
    intros Hrun. pose proof (apply_mask_frame m x p f w Hx Hox Hnx) as Hfr.
    destruct (apply_mask m x w) as [[[]|e] wx] eqn:E; simpl in Hfr.
    + rewrite (bind_Ok _ _ _ _ _ E) in Hrun.
      rewrite (bind_Ok _ _ _ _ _ Hfr). by apply IH.
    + rewrite (bind_Raise _ _ _ _ _ E) in Hrun. injection Hrun as <- <-.
      by rewrite (bind_Raise _ _ _ _ _ Hfr).
Qed.

Lemma for_each_split_Ok {T} (l1 l2 : list T) x (body : T → M unit) w w' :
  for_each (l1 ++ x :: l2) body w = (Ok tt, w') →
  ∃ wa wb, for_each l1 body w = (Ok tt, wa) ∧ body x wa = (Ok tt, wb)
           ∧ for_each l2 body wb = (Ok tt, w').
Proof.
  revert w. induction l1 as [|y l1 IH]; intros w; simpl.
  - intros Hrun. apply bind_Ok_inv in Hrun as ([] & wb & Hx & Hrun).
    by exists w, wb.
  - intros Hrun. apply bind_Ok_inv in Hrun as ([] & wy & Hy & Hrun).
    destruct (IH _ Hrun) as (wa & wb & Ha & Hb & Hc).
    exists wa, wb. by rewrite (bind_Ok _ _ _ _ _ Hy).
Qed.

(** The loop saves one volume per path, makes no registration call and
    changes no file but the ones it saves. *)
Lemma for_each_apply_mask_trace m l w w1 :
  for_each l (apply_mask m) w = (Ok tt, w1) →
  (∃ more, saves (trace w1) = saves (trace w) ++ more
           ∧ length more = length l)
  ∧ flirts (trace w1) = flirts (trace w)
  ∧ ∀ q, q ∉ image_filename ∘ default_outfile <$> l →
      files w1 !! q = files w !! q.
Proof.
  revert w. induction l as [|x l IH]; intros w; simpl.
  - intros [= <-]. split_and!; [|done..]. exists []. by rewrite app_nil_r.
  - intros Hrun. apply bind_Ok_inv in Hrun as ([] & wx & Hx & Hrun).
    apply apply_mask_Ok_inv in Hx as (comp & outdata & _ & _ & _ & _ & ->).
    destruct (IH _ Hrun) as ((more & Hs & Hlen) & Hfl & Hkeep). simpl in *.
    split_and!.
    + eexists (_ :: more). split; [|simpl; by rewrite Hlen].
      rewrite Hs, saves_app. simpl. by rewrite <- app_assoc.
    + rewrite Hfl, flirts_app. simpl. by rewrite app_nil_r.
    + intros q Hq. apply not_elem_of_cons in Hq as [Hqx Hq].
      rewrite Hkeep by done. by rewrite lookup_insert_ne.
Qed.

(** The returned mask is the volume that the second registration call
    produced. *)
Lemma deface_image_returns args w m w' :
  deface_image args w = (Ok m, w') →
  ∃ query mat, q_apply_xfm query = true ∧ flirt_engine query = Some (m, mat).
Proof.
  intros Hrun.
  apply deface_image_Ok_inv in Hrun
    as (template & facemask & outfile & tmp & w1 & w2 & w3 & infile_img
        & outdata & w5 & _ & _ & _ & _ & Hb & _ & Hm & _).
  apply flirt_run_Ok_inv in Hb
    as (moving & ref & init & out & mat & _ & _ & He & Hf).
  simpl in *. rewrite Hf in Hm.
  rewrite lookup_insert in Hm. case_decide; [done|].
  rewrite lookup_insert_eq in Hm. injection Hm as <-.
  eexists _, mat. split; [|exact He]. done.
Qed.

Lemma deface_image_cleans args w m w' tmp w1 :
  temporary_files (Namespace.verbose args) w = (Ok tmp, w1) →
  Namespace.nocleanup args = false →
  deface_image args w = (Ok m, w') →
  files w' !! template_reg tmp = None
  ∧ files w' !! template_reg_mat tmp = None
  ∧ files w' !! warped_mask tmp = None.
Proof.
  intros Ht Hn Hrun.
  apply deface_image_Ok_inv in Hrun
    as (template & facemask & outfile & tmp' & w1' & w2 & w3 & infile_img
        & outdata & w5 & _ & _ & Ht' & _ & _ & _ & _ & _ & Hc & ->).
  rewrite Ht in Ht'. injection Ht' as <- <-.
  apply cleanup_Ok_inv in Hc as (_ & _ & Hc). rewrite Hn in Hc.
  simpl. rewrite Hc. rewrite !lookup_delete.
  split_and!; repeat case_decide; done.
Qed.

(** *** main *)

Lemma main_applyto args w m w' l :
  deface_image args (welcomed w) = (Ok m, w') →
  Namespace.applyto args = Some l →
  main args w
  = ((print "Defacing mask also applied to:";; for_each l (apply_mask m));;
     print "Finished.") w'.
Proof.
  intros Hrun Hl. unfold main.
  rewrite (bind_Ok _ _ w tt (welcomed w)) by done.
  rewrite (bind_Ok _ _ _ _ _ Hrun). by rewrite Hl.
Qed.

(** *** Properties of the design document *)

(** C3, as amended: on every successful run with cleanup enabled the
    registered-template volume, the transform matrix estimated by the
    first registration call and the warped mask file are all deleted
    from disk. *)
Theorem cleanup_removes args w m w' tmp w1 :
  temporary_files (Namespace.verbose args) w = (Ok tmp, w1) →
  Namespace.nocleanup args = false →
  deface_image args w = (Ok m, w') →
  files w' !! template_reg tmp = None
  ∧ files w' !! template_reg_mat tmp = None
  ∧ files w' !! warped_mask tmp = None.
Proof. apply deface_image_cleans. Qed.



(** C8: the loop over [args.applyto] takes the paths in the order
    given; when one path fails, the loop raises at once, the paths
    after it are not touched, and what was saved for the paths before
    it stays on disk, each under the file name that nibabel gives its
    output path. *)
Theorem batch_aborts m processed applyfile rest w w1 e w2 :
  for_each processed (apply_mask m) w = (Ok tt, w1) →
  apply_mask m applyfile w1 = (Raise e, w2) →
  for_each (processed ++ applyfile :: rest) (apply_mask m) w = (Raise e, w1)
  ∧ w2 = w1
  ∧ (saves (trace w1)).*1
    = (saves (trace w)).*1 ++ (image_filename ∘ default_outfile <$> processed)
  ∧ ∀ x, x ∈ processed →
      ∃ img, files w1 !! image_filename (default_outfile x)
             = Some (VolumeFile img).
Proof.
  intros Hdone Hfail.
  pose proof (apply_mask_Raise_inv _ _ _ _ _ Hfail) as ->.
  destruct (for_each_apply_mask_Ok _ _ _ _ Hdone) as (Hs & _ & Hout).
  split_and!; try done.
  rewrite (for_each_app _ _ _ _ _ Hdone). simpl.
  by rewrite (bind_Raise _ _ _ _ _ Hfail).
Qed.

(** C9: when the engine reports failure on the first registration
    call, the run raises; that call was made once and no other, no
    volume was saved, and the disk holds what it held before plus the
    empty files that [mkstemp] made. *)
Theorem registration_failure_aborts args w template facemask outfile
    tmp w1 timg simg :
  initial_checks (Namespace.template args) (Namespace.facemask args) w
    = (Ok (template, facemask), w) →
  output_checks (Namespace.infile args) (Namespace.outfile args)
                (Namespace.force args) w = (Ok outfile, w) →
  temporary_files (Namespace.verbose args) w = (Ok tmp, w1) →
  files w !! template = Some (VolumeFile timg) →
  files w !! Namespace.infile args = Some (VolumeFile simg) →
  flirt_engine (Query (Some (Namespace.cost args)) timg simg None false)
    = None →
  ∃ w', deface_image args w = (Raise RuntimeError, w')
        ∧ files w' = files w1
        ∧ (∀ p, files w' !! p = files w !! p
                ∨ files w' !! p = Some EmptyFile)
        ∧ flirts (trace w')
          = flirts (trace w) ++ [estimate args template tmp]
        ∧ saves (trace w') = saves (trace w).
Proof.
  intros Hi Ho Ht Htem Hsub He.
  destruct (temporary_files_keeps _ _ _ _ template Ht) as (Htem1 & _);
    [eauto|].
  destruct (temporary_files_keeps _ _ _ _ (Namespace.infile args) Ht)
    as (Hsub1 & _); [eauto|].
  eexists. split_and!.
  - unfold deface_image.
    rewrite (bind_Ok _ _ _ _ _ Hi), (bind_Ok _ _ _ _ _ Ho),
      (bind_Ok _ _ _ _ _ Ht).
    rewrite (bind_Ok _ _ w1 tt (announced args w1)) by done.
    erewrite bind_Raise; [done|].
    apply (flirt_run_engine_fails (estimate args template tmp)
             (announced args w1) timg simg); simpl; [done| | |done].
    + by rewrite Htem1.
    + by rewrite Hsub1.
  - done.
  - intros p. simpl. by eapply temporary_files_adds.
  - simpl. rewrite !flirts_app. simpl. rewrite app_nil_r.
    by apply temporary_files_Ok_inv in Ht as (?&?&_&_&_&_&_&_&_&_&->).
  - simpl. rewrite !saves_app. simpl. rewrite !app_nil_r.
    by apply temporary_files_Ok_inv in Ht as (?&?&_&_&_&_&_&_&_&->&_).
Qed.

(** C10: the mask that a successful run returns is the volume that
    the second registration call produced, held in memory; with
    cleanup its file is gone when the run returns; [main] hands that
    value to the loop over [args.applyto].  When [main] returns, the
    loop has made no registration call, and for each companion path,
    in the order given, it has saved the product of the companion's
    data and the data of that mask, with the companion's affine and
    header; the companion is the volume that was at its path when the
    primary run returned, unless an earlier output of the loop was
    written there.  The loop gives the same result and leaves the same
    world whatever the disk holds at a path that is neither a companion
    image nor one of their outputs, the path of the warped mask file
    among them. *)
Theorem mask_reused_in_memory args w m w' :
  deface_image args (welcomed w) = (Ok m, w') →
  (∃ query mat, q_apply_xfm query = true
                ∧ flirt_engine query = Some (m, mat))
  ∧ (Namespace.nocleanup args = false →
     ∀ tmp w1,
       temporary_files (Namespace.verbose args) (welcomed w) = (Ok tmp, w1) →
       files w' !! warped_mask tmp = None)
  ∧ (∀ applyto, Namespace.applyto args = Some applyto →
       main args w
       = ((print "Defacing mask also applied to:";;
           for_each applyto (apply_mask m));;
          print "Finished.") w')
  ∧ (∀ applyto w'',
       Namespace.applyto args = Some applyto →
       main args w = (Ok tt, w'') →
       flirts (trace w'') = flirts (trace w')
       ∧ ∀ processed applyfile rest,
           applyto = processed ++ applyfile :: rest →
           ∃ comp outdata,
             (applyfile ∉ image_filename ∘ default_outfile <$> processed →
              files w' !! applyfile = Some (VolumeFile comp))
             ∧ np.multiply (get_data comp) (get_data m) = Ok outdata
             ∧ saves (trace w'')
               !! (length (saves (trace w')) + length processed)
               = Some (image_filename (default_outfile applyfile),
                       Nifti1Image outdata (get_affine comp)
                                   (get_header comp)))
  ∧ (∀ applyto p f wb r wb',
       p ∉ applyto → p ∉ default_outfile <$> applyto →
       p ∉ image_filename ∘ default_outfile <$> applyto →
       for_each applyto (apply_mask m) wb = (r, wb') →
       for_each applyto (apply_mask m) (with_file p f wb)
       = (r, with_file p f wb')).
Proof.
  intros Hrun. split_and!.
  - by eapply deface_image_returns.
  - intros Hn tmp w1 Ht.
    by destruct (deface_image_cleans _ _ _ _ _ _ Ht Hn Hrun) as (_ & _ & ?).
  - intros applyto Hl. by apply main_applyto.
  - intros applyto w'' Hl Hmain.
    rewrite (main_applyto _ _ _ _ _ Hrun Hl) in Hmain.
    apply bind_Ok_inv in Hmain as ([] & wl & Hloop & Hfin).
    injection Hfin as <-.
    apply bind_Ok_inv in Hloop as ([] & wp & Hp & Hloop).
    injection Hp as <-. simpl. split.
    + destruct (for_each_apply_mask_trace _ _ _ _ Hloop) as (_ & Hfl & _).
      simpl in Hfl. rewrite flirts_app, Hfl, flirts_app. simpl.
      by rewrite !app_nil_r.
    + intros processed applyfile rest ->.
      apply for_each_split_Ok in Hloop as (wa & wb & Ha & Hb & Hc).
      apply apply_mask_Ok_inv in Hb
        as (comp & outdata & Hcomp & Hd & _ & _ & ->).
      destruct (for_each_apply_mask_trace _ _ _ _ Ha)
        as ((done & Hsa & Hlen) & _ & Hkeep).
      destruct (for_each_apply_mask_trace _ _ _ _ Hc)
        as ((more & Hsc & _) & _ & _).
      simpl in *. exists comp, outdata. split_and!; [|done|].
      * intros Hfresh. by rewrite <- (Hkeep _ Hfresh).
      * rewrite saves_app, Hsc, !saves_app, Hsa, saves_app. simpl.
        rewrite !app_nil_r, <- !app_assoc. simpl.
        rewrite app_assoc. apply list_lookup_middle.
        by rewrite length_app, Hlen.
  - intros applyto p f wb r wb'. apply for_each_apply_mask_frame.
Qed.

(** *** Running forward *)

Lemma initial_checks_Ok t f w timg fimg :
  files w !! default default_template t = Some (VolumeFile timg) →
  files w !! default default_facemask f = Some (VolumeFile fimg) →
  initial_checks t f w
  = (Ok (default default_template t, default default_facemask f), w).
Proof.
  intros Ht Hf. unfold initial_checks.
  rewrite (bind_Ok _ _ _ _ _ (load_Ok _ _ _ Ht)).
  by rewrite (bind_Ok _ _ _ _ _ (load_Ok _ _ _ Hf)).
Qed.

Lemma read_matrix_Ok p w m :
  files w !! p = Some (MatrixFile m) → read_matrix p w = (Ok m, w).
Proof. unfold read_matrix. by intros ->. Qed.


(** What a registration call does once its inputs are on disk. *)
Lemma flirt_run_reads inputs w moving ref init :
  files w !! fsl.in_file inputs = Some (VolumeFile moving) →
  files w !! fsl.reference inputs = Some (VolumeFile ref) →
  match fsl.in_matrix_file inputs with
  | Some p => ∃ m0, files w !! p = Some (MatrixFile m0) ∧ init = Some m0
  | None => init = None
  end →
  flirt_run inputs w
  = match flirt_engine (Query (fsl.cost_func inputs) moving ref init
                              (fsl.apply_xfm inputs)) with
    | None =>
        (Raise RuntimeError,
         World (files w) (tmpnames w) (trace w ++ [EvFlirt inputs]))
    | Some (out, mat) =>
        (Ok tt,
         World (<[fsl.out_matrix_file inputs := MatrixFile mat]>
                  (<[fsl.out_file inputs := VolumeFile out]> (files w)))
               (tmpnames w) (trace w ++ [EvFlirt inputs]))
    end.
Proof.
  intros H1 H2 H3. unfold flirt_run.
  set (we := World (files w) (tmpnames w) (trace w ++ [EvFlirt inputs])).
  rewrite (bind_Ok _ _ w tt we) by done.
  rewrite (bind_Ok _ _ we moving we) by by apply load_Ok.
  rewrite (bind_Ok _ _ we ref we) by by apply load_Ok.
  destruct (fsl.in_matrix_file inputs) as [p|].
  - destruct H3 as (m0 & Hm0 & ->).
    rewrite (bind_Ok _ _ we (Some m0) we).
    + by destruct (flirt_engine _) as [[out mat]|].
    + by rewrite (bind_Ok _ _ we m0 we) by by apply read_matrix_Ok.
  - subst init. rewrite (bind_Ok _ _ we None we) by done.
    by destruct (flirt_engine _) as [[out mat]|].
Qed.

Lemma separate_inv tmp others :
  separate tmp others →
  template_reg_mat tmp ≠ warped_mask tmp
  ∧ template_reg_mat tmp ≠ template_reg tmp
  ∧ template_reg_mat tmp ≠ warped_mask_mat tmp
  ∧ warped_mask tmp ≠ template_reg tmp
  ∧ warped_mask tmp ≠ warped_mask_mat tmp
  ∧ template_reg tmp ≠ warped_mask_mat tmp
  ∧ ∀ p, p ∈ others →
      p ≠ template_reg_mat tmp ∧ p ≠ warped_mask tmp
      ∧ p ≠ template_reg tmp ∧ p ≠ warped_mask_mat tmp.
Proof.
  unfold separate, temp_paths. intros [Hnd Hoth].
  pose proof (NoDup_cons_1_1 _ _ Hnd) as H1.
  apply NoDup_cons_1_2 in Hnd. pose proof (NoDup_cons_1_1 _ _ Hnd) as H2.
  apply NoDup_cons_1_2 in Hnd. pose proof (NoDup_cons_1_1 _ _ Hnd) as H3.
  rewrite !not_elem_of_cons in H1. rewrite !not_elem_of_cons in H2.
  rewrite !not_elem_of_cons in H3.
  destruct H1 as (?&?&?&_), H2 as (?&?&_), H3 as (?&_).
  split_and!; try done.
  intros p Hp. rewrite Forall_forall in Hoth. specialize (Hoth p Hp).
  rewrite !not_elem_of_cons in Hoth. by destruct Hoth as (?&?&?&?&_).
Qed.

Ltac lookup_step :=
  repeat (rewrite lookup_insert_eq || rewrite lookup_delete_eq
          || (rewrite lookup_insert_ne by congruence)
          || (rewrite lookup_delete_ne by congruence)).

(** *** Further properties of [deface_image] *)


Lemma flirt_run_Ok_reads inputs w w' :
  flirt_run inputs w = (Ok tt, w') →
  ∃ moving ref init out mat,
    files w !! fsl.in_file inputs = Some (VolumeFile moving)
    ∧ files w !! fsl.reference inputs = Some (VolumeFile ref)
    ∧ match fsl.in_matrix_file inputs with
      | Some p => ∃ m0, files w !! p = Some (MatrixFile m0) ∧ init = Some m0
      | None => init = None
      end
    ∧ flirt_engine (Query (fsl.cost_func inputs) moving ref init
                          (fsl.apply_xfm inputs)) = Some (out, mat)
    ∧ files w' = <[fsl.out_matrix_file inputs := MatrixFile mat]>
                   (<[fsl.out_file inputs := VolumeFile out]> (files w)).
Proof.
  unfold flirt_run, emit, mbind, M_bind. simpl.
  set (we := World _ _ _).
  destruct (load (fsl.in_file inputs) we) as [[moving|] w1] eqn:H1; [|done].
  apply load_Ok_inv in H1 as [-> H1].
  destruct (load (fsl.reference inputs) we) as [[ref|] w1] eqn:H2; [|done].
  apply load_Ok_inv in H2 as [-> H2].
  destruct (fsl.in_matrix_file inputs) as [pm|].
  - destruct (read_matrix pm we) as [[m0|] w1] eqn:H3; [|done].
    apply read_matrix_Ok_inv in H3 as [-> H3]. simpl.
    destruct (flirt_engine _) as [[out mat]|] eqn:He; [|done].
    intros [= <-]. exists moving, ref, (Some m0), out, mat.
    split_and!; eauto.
  - simpl. destruct (flirt_engine _) as [[out mat]|] eqn:He; [|done].
    intros [= <-]. by exists moving, ref, None, out, mat.
Qed.

(** On a successful run the first registration call was asked for
    template onto subject with the chosen cost function, the second for
    facemask onto subject with the matrix that the first one produced,
    in apply-only mode, and the mask returned is what the second one
    answered.  Facemask and subject are taken not to lie at the path of
    the first matrix. *)
Theorem registration_chain args w m w' template facemask timg fimg subj
    tmp w1 :
  initial_checks (Namespace.template args) (Namespace.facemask args) w
    = (Ok (template, facemask), w) →
  files w !! template = Some (VolumeFile timg) →
  files w !! facemask = Some (VolumeFile fimg) →
  files w !! Namespace.infile args = Some (VolumeFile subj) →
  temporary_files (Namespace.verbose args) w = (Ok tmp, w1) →
  facemask ≠ template_reg_mat tmp →
  Namespace.infile args ≠ template_reg_mat tmp →
  deface_image args w = (Ok m, w') →
  ∃ reg mat mat',
    flirt_engine (Query (Some (Namespace.cost args)) timg subj None false)
      = Some (reg, mat)
    ∧ flirt_engine (Query None fimg subj (Some mat) true) = Some (m, mat').
Proof.
  intros Hi Htem Hface Hsub Ht Hf Hin Hrun.
  apply deface_image_Ok_inv in Hrun
    as (template' & facemask' & outfile & tmp' & w1' & w2 & w3 & infile_img
        & outdata & w5 & Hi' & _ & Ht' & Ha & Hb & _ & Hm & _).
  rewrite Hi in Hi'. injection Hi' as <- <-.
  rewrite Ht in Ht'. injection Ht' as <- <-.
  destruct (temporary_files_keeps _ _ _ _ template Ht) as (Htem1 & _);
    [eauto|].
  destruct (temporary_files_keeps _ _ _ _ facemask Ht) as (Hface1 & Hf3 & _);
    [eauto|].
  destruct (temporary_files_keeps _ _ _ _ (Namespace.infile args) Ht)
    as (Hsub1 & Hi3 & _); [eauto|].
  apply flirt_run_Ok_reads in Ha
    as (moving & ref & init & reg & mat & Ha1 & Ha2 & Ha3 & Hea & Hfa).
  simpl in *. subst init.
  rewrite Htem1, Htem in Ha1. injection Ha1 as <-.
  rewrite Hsub1, Hsub in Ha2. injection Ha2 as <-.
  apply flirt_run_Ok_reads in Hb
    as (moving & ref & init & out & mat' & Hb1 & Hb2 & Hb3 & Heb & Hfb).
  simpl in *. destruct Hb3 as (m0 & Hm0 & ->).
  rewrite Hfa in Hb1, Hb2, Hm0.
  rewrite !lookup_insert_ne in Hb1 by congruence.
  rewrite !lookup_insert_ne in Hb2 by congruence.
  rewrite lookup_insert_eq in Hm0. injection Hm0 as <-.
  rewrite Hface1, Hface in Hb1. injection Hb1 as <-.
  rewrite Hsub1, Hsub in Hb2. injection Hb2 as <-.
  rewrite Hfb in Hm. rewrite lookup_insert in Hm. case_decide; [done|].
  rewrite lookup_insert_eq in Hm. injection Hm as <-.
  by exists reg, mat, mat'.
Qed.

(** A successful run leaves every file that was on disk before it as
    it was, except the file that the output is written to and the two
    temporary paths that are made by appending a suffix. *)
Theorem deface_image_frame args w m w' tmp w1 p :
  temporary_files (Namespace.verbose args) w = (Ok tmp, w1) →
  is_Some (files w !! p) →
  p ≠ image_filename (default (default_outfile (Namespace.infile args))
                              (Namespace.outfile args)) →
  p ≠ template_reg_mat tmp → p ≠ warped_mask tmp →
  deface_image args w = (Ok m, w') →
  files w' !! p = files w !! p.
Proof.
  intros Ht Hp Hout Hmat Hmask Hrun.
  apply deface_image_Ok_inv in Hrun
    as (template & facemask & outfile & tmp' & w1' & w2 & w3 & infile_img
        & outdata & w5 & _ & Ho & Ht' & Ha & Hb & _ & _ & _ & Hc & ->).
  rewrite Ht in Ht'. injection Ht' as <- <-.
  apply output_checks_Ok_inv in Ho as [-> _].
  pose proof (registration_keeps _ _ _ _ _ _ _ _ p Ht Ha Hb Hp Hmat Hmask)
    as H3.
  destruct (temporary_files_keeps _ _ _ _ p Ht Hp) as (_ & Hreg & _).
  apply cleanup_Ok_inv in Hc as (_ & _ & Hf). simpl in *.
  destruct (Namespace.nocleanup args); rewrite Hf.
  - by rewrite lookup_insert_ne.
  - rewrite !lookup_delete_ne by done. by rewrite lookup_insert_ne.
Qed.

Lemma temporary_files_names v w tmp w1 :
  temporary_files v w = (Ok tmp, w1) →
  ∃ a b,
    template_reg_mat tmp = a +:+ ".mat"
    ∧ warped_mask tmp = b +:+ ".nii.gz"
    ∧ files w !! a = None ∧ files w !! b = None
    ∧ files w1 !! a = Some EmptyFile ∧ files w1 !! b = Some EmptyFile
    ∧ a ≠ template_reg tmp ∧ a ≠ warped_mask_mat tmp
    ∧ b ≠ template_reg tmp ∧ b ≠ warped_mask_mat tmp
    ∧ mkstemps (trace w1)
      = mkstemps (trace w)
        ++ [a; b; template_reg tmp; warped_mask_mat tmp].
Proof.
  intros Hrun. unfold temporary_files in Hrun.
  apply bind_Ok_inv in Hrun as (a & wa & Ha & Hrun).
  apply bind_Ok_inv in Hrun as (b & wb & Hb & Hrun).
  apply bind_Ok_inv in Hrun as ([] & wp & Hp & Hrun).
  apply bind_Ok_inv in Hrun as (c & wc & Hc & Hrun).
  apply bind_Ok_inv in Hrun as (d & wd & Hd & Hrun).
  injection Hrun as <- <-. simpl.
  apply mkstemp_Ok_inv in Ha as (Hfa & Ha & Hta).
  apply mkstemp_Ok_inv in Hb as (Hfb & Hb & Htb).
  apply mkstemp_Ok_inv in Hc as (Hfc & Hc & Htc).
  apply mkstemp_Ok_inv in Hd as (Hfd & Hd & Htd).
  assert (files wp = files wb
          ∧ mkstemps (trace wp) = mkstemps (trace wb)) as [Hpf Hpt].
  { destruct v; injection Hp as <-; simpl; [|done].
    split; [done|]. unfold mkstemps. rewrite omap_app. simpl.
    by rewrite app_nil_r. }
  assert (mkstemps (trace wd) = mkstemps (trace w) ++ [a; b; c; d]) as Hmk.
  { unfold mkstemps in *. rewrite Htd, omap_app, Htc, omap_app, Hpt, Htb,
      omap_app, Hta, omap_app. simpl. by rewrite <- !app_assoc. }
  rewrite Hpf in *. rewrite Hb in *. rewrite Ha in *. rewrite Hc in *.
  apply lookup_insert_None in Hfb as [Hfb ?].
  apply lookup_insert_None in Hfc as [Hfc ?].
  apply lookup_insert_None in Hfc as [Hfc ?].
  apply lookup_insert_None in Hfd as [Hfd ?].
  apply lookup_insert_None in Hfd as [Hfd ?].
  apply lookup_insert_None in Hfd as [Hfd ?].
  exists a, b. rewrite Hd. split_and!; try done; try congruence;
    by lookup_step.
Qed.

(** [mkstemp] is called four times.  The files it creates for the first
    two names, the ones that get a suffix, are never written and never
    removed: after a successful run they are on disk, empty, with or
    without cleanup (unless one is the file that the output is written
    to, or a suffixed name itself). *)
Theorem mkstemp_files_left args w m w' tmp w1 :
  temporary_files (Namespace.verbose args) w = (Ok tmp, w1) →
  deface_image args w = (Ok m, w') →
  ∃ a b,
    mkstemps (trace w1)
    = mkstemps (trace w) ++ [a; b; template_reg tmp; warped_mask_mat tmp]
    ∧ template_reg_mat tmp = a +:+ ".mat"
    ∧ warped_mask tmp = b +:+ ".nii.gz"
    ∧ files w !! a = None ∧ files w !! b = None
    ∧ ∀ p, p ∈ [a; b] →
        p ∉ [image_filename
               (default (default_outfile (Namespace.infile args))
                        (Namespace.outfile args));
             template_reg_mat tmp; warped_mask tmp] →
        files w' !! p = Some EmptyFile.
Proof.
  intros Ht Hrun.
  destruct (temporary_files_names _ _ _ _ Ht)
    as (a & b & Ea & Eb & Hfa & Hfb & Ha1 & Hb1 & Hac & Had & Hbc & Hbd
        & Hmk).
  exists a, b. split_and!; try done.
  apply deface_image_Ok_inv in Hrun
    as (template & facemask & outfile & tmp' & w1' & w2 & w3 & infile_img
        & outdata & w5 & _ & Ho & Ht' & Ha & Hb & _ & _ & _ & Hc & ->).
  rewrite Ht in Ht'. injection Ht' as <- <-.
  apply output_checks_Ok_inv in Ho as [-> _].
  apply flirt_run_Ok_inv in Ha as (? & ? & ? & ? & ? & _ & _ & _ & Ha).
  apply flirt_run_Ok_inv in Hb as (? & ? & ? & ? & ? & _ & _ & _ & Hb).
  apply cleanup_Ok_inv in Hc as (_ & _ & Hf). simpl in *.
  intros p Hp Hnot. rewrite !not_elem_of_cons in Hnot.
  destruct Hnot as (Ho & Hmat & Hmask & _).
  assert (files w1 !! p = Some EmptyFile ∧ p ≠ template_reg tmp
          ∧ p ≠ warped_mask_mat tmp) as (Hp1 & Hpc & Hpd).
  { apply elem_of_cons in Hp as [->|Hp]; [done|].
    apply list_elem_of_singleton in Hp as ->. done. }
  assert (files w3 !! p = Some EmptyFile) as Hp3.
  { rewrite Hb, Ha. by rewrite !lookup_insert_ne. }
  destruct (Namespace.nocleanup args); rewrite Hf.
  - by rewrite lookup_insert_ne.
  - rewrite !lookup_delete_ne by done. by rewrite lookup_insert_ne.
Qed.

(** The run from the first registration call on, once the checks have
    passed and the temporary files are made. *)
Lemma deface_image_from_registration args w template facemask outfile tmp w1 :
  initial_checks (Namespace.template args) (Namespace.facemask args) w
    = (Ok (template, facemask), w) →
  output_checks (Namespace.infile args) (Namespace.outfile args)
                (Namespace.force args) w = (Ok outfile, w) →
  temporary_files (Namespace.verbose args) w = (Ok tmp, w1) →
  deface_image args w
  = (flirt_run (estimate args template tmp);;
     flirt_run (warp args facemask tmp);;
     infile_img ← load (Namespace.infile args);
     warped_mask_img ← load (warped_mask tmp);
     outdata ← lift (multiply_mask (get_data infile_img)
                                   (get_data warped_mask_img));
     to_filename (Nifti1Image outdata (get_affine infile_img)
                              (get_header infile_img)) outfile;;
     cleanup args tmp;;
     print ("Defaced image saved as:" +:+ nl +:+ "  " +:+ outfile);;
     mret warped_mask_img) (announced args w1).
Proof.
  intros Hi Ho Ht. unfold deface_image.
  rewrite (bind_Ok _ _ _ _ _ Hi), (bind_Ok _ _ _ _ _ Ho),
    (bind_Ok _ _ _ _ _ Ht).
  by rewrite (bind_Ok _ _ w1 tt (announced args w1)) by done.
Qed.

(** When the first registration call succeeds and the engine reports
    failure on the second, the run raises: nothing is saved, nothing is
    cleaned up, and the registered template and the estimated matrix
    stay on disk. *)
Theorem warp_failure_leaves_artifacts args w tmp w1 timg fimg subj reg mat :
  let template := default default_template (Namespace.template args) in
  let facemask := default default_facemask (Namespace.facemask args) in
  let infile := Namespace.infile args in
  let outfile := default (default_outfile infile) (Namespace.outfile args) in
  files w !! template = Some (VolumeFile timg) →
  files w !! facemask = Some (VolumeFile fimg) →
  files w !! infile = Some (VolumeFile subj) →
  (files w !! outfile = None ∨ Namespace.force args = true) →
  temporary_files (Namespace.verbose args) w = (Ok tmp, w1) →
  separate tmp [template; facemask; infile] →
  flirt_engine (Query (Some (Namespace.cost args)) timg subj None false)
    = Some (reg, mat) →
  flirt_engine (Query None fimg subj (Some mat) true) = None →
  ∃ w',
    deface_image args w = (Raise RuntimeError, w')
    ∧ files w' !! template_reg tmp = Some (VolumeFile reg)
    ∧ files w' !! template_reg_mat tmp = Some (MatrixFile mat)
    ∧ saves (trace w') = saves (trace w)
    ∧ flirts (trace w')
      = flirts (trace w)
        ++ [estimate args template tmp; warp args facemask tmp].
Proof.
  intros template facemask infile outfile Htem Hface Hsub Hout Ht Hsep
    Hea Heb.
  apply separate_inv in Hsep as (N1 & N2 & N3 & N4 & N5 & N6 & Hoth).
  destruct (Hoth template) as (T1 & T2 & T3 & T4); [repeat constructor|].
  destruct (Hoth facemask) as (F1 & F2 & F3 & F4); [repeat constructor|].
  destruct (Hoth infile) as (I1 & I2 & I3 & I4); [repeat constructor|].
  destruct (temporary_files_keeps _ _ _ _ template Ht) as (Htem1 & _);
    [eauto|].
  destruct (temporary_files_keeps _ _ _ _ facemask Ht) as (Hface1 & _);
    [eauto|].
  destruct (temporary_files_keeps _ _ _ _ infile Ht) as (Hsub1 & _);
    [eauto|].
  rewrite Htem in Htem1. rewrite Hface in Hface1. rewrite Hsub in Hsub1.
  assert (saves (trace w1) = saves (trace w)
          ∧ flirts (trace w1) = flirts (trace w)) as [Hs1 Hf1]
    by (by apply temporary_files_Ok_inv in Ht as (?&?&_&_&_&_&_&_&_&?&?)).
  clear Hoth. subst template facemask infile outfile.
  set (template := default default_template (Namespace.template args)) in *.
  set (facemask := default default_facemask (Namespace.facemask args)) in *.
  set (outfile := default (default_outfile (Namespace.infile args))
                          (Namespace.outfile args)) in *.
  pose (w2 := World (<[template_reg_mat tmp := MatrixFile mat]>
                       (<[template_reg tmp := VolumeFile reg]> (files w1)))
                    (tmpnames w1)
                    (trace (announced args w1)
                     ++ [EvFlirt (estimate args template tmp)])).
  assert (flirt_run (estimate args template tmp) (announced args w1)
          = (Ok tt, w2)) as Ha.
  { rewrite (flirt_run_reads (estimate args template tmp)
               (announced args w1) timg subj None Htem1 Hsub1 eq_refl).
    simpl. by rewrite Hea. }
  assert (flirt_run (warp args facemask tmp) w2
          = (Raise RuntimeError,
             World (files w2) (tmpnames w2)
                   (trace w2 ++ [EvFlirt (warp args facemask tmp)]))) as Hb.
  { rewrite (flirt_run_reads (warp args facemask tmp) w2 fimg subj (Some mat)).
    - simpl. by rewrite Heb.
    - simpl. lookup_step. exact Hface1.
    - simpl. lookup_step. exact Hsub1.
    - simpl. exists mat. split; [|done]. by lookup_step. }
  eexists. split.
  - rewrite (deface_image_from_registration args w template facemask outfile
               tmp w1); [|by eapply initial_checks_Ok| |done].
    + rewrite (bind_Ok _ _ _ _ _ Ha). by rewrite (bind_Raise _ _ _ _ _ Hb).
    + destruct Hout as [Hfree|Hforce].
      * by apply output_checks_free.
      * rewrite Hforce. apply output_checks_force.
  - simpl. rewrite !saves_app, !flirts_app. simpl.
    rewrite !app_nil_r, Hs1, Hf1, <- ?app_assoc.
    split_and!; try done; by lookup_step.
Qed.

(** When both registration calls succeed and the subject and the mask
    cannot be multiplied, the run raises what numpy raised: nothing is
    saved and all four artifacts stay on disk. *)
Theorem shape_failure_saves_nothing args w tmp w1 timg fimg subj reg mat m
    mat' e :
  let template := default default_template (Namespace.template args) in
  let facemask := default default_facemask (Namespace.facemask args) in
  let infile := Namespace.infile args in
  let outfile := default (default_outfile infile) (Namespace.outfile args) in
  files w !! template = Some (VolumeFile timg) →
  files w !! facemask = Some (VolumeFile fimg) →
  files w !! infile = Some (VolumeFile subj) →
  (files w !! outfile = None ∨ Namespace.force args = true) →
  temporary_files (Namespace.verbose args) w = (Ok tmp, w1) →
  separate tmp [template; facemask; infile] →
  flirt_engine (Query (Some (Namespace.cost args)) timg subj None false)
    = Some (reg, mat) →
  flirt_engine (Query None fimg subj (Some mat) true) = Some (m, mat') →
  multiply_mask (get_data subj) (get_data m) = Raise e →
  ∃ w',
    deface_image args w = (Raise e, w')
    ∧ files w' !! warped_mask tmp = Some (VolumeFile m)
    ∧ files w' !! warped_mask_mat tmp = Some (MatrixFile mat')
    ∧ files w' !! template_reg tmp = Some (VolumeFile reg)
    ∧ files w' !! template_reg_mat tmp = Some (MatrixFile mat)
    ∧ saves (trace w') = saves (trace w).
Proof.
  intros template facemask infile outfile Htem Hface Hsub Hout Ht Hsep
    Hea Heb Hmul.
  apply separate_inv in Hsep as (N1 & N2 & N3 & N4 & N5 & N6 & Hoth).
  destruct (Hoth template) as (T1 & T2 & T3 & T4); [repeat constructor|].
  destruct (Hoth facemask) as (F1 & F2 & F3 & F4); [repeat constructor|].
  destruct (Hoth infile) as (I1 & I2 & I3 & I4); [repeat constructor|].
  destruct (temporary_files_keeps _ _ _ _ template Ht) as (Htem1 & _);
    [eauto|].
  destruct (temporary_files_keeps _ _ _ _ facemask Ht) as (Hface1 & _);
    [eauto|].
  destruct (temporary_files_keeps _ _ _ _ infile Ht) as (Hsub1 & _);
    [eauto|].
  rewrite Htem in Htem1. rewrite Hface in Hface1. rewrite Hsub in Hsub1.
  assert (saves (trace w1) = saves (trace w)) as Hs1
    by (by apply temporary_files_Ok_inv in Ht as (?&?&_&_&_&_&_&_&_&?&?)).
  clear Hoth. subst template facemask infile outfile.
  set (template := default default_template (Namespace.template args)) in *.
  set (facemask := default default_facemask (Namespace.facemask args)) in *.
  set (outfile := default (default_outfile (Namespace.infile args))
                          (Namespace.outfile args)) in *.
  pose (w2 := World (<[template_reg_mat tmp := MatrixFile mat]>
                       (<[template_reg tmp := VolumeFile reg]> (files w1)))
                    (tmpnames w1)
                    (trace (announced args w1)
                     ++ [EvFlirt (estimate args template tmp)])).
  assert (flirt_run (estimate args template tmp) (announced args w1)
          = (Ok tt, w2)) as Ha.
  { rewrite (flirt_run_reads (estimate args template tmp)
               (announced args w1) timg subj None Htem1 Hsub1 eq_refl).
    simpl. by rewrite Hea. }
  pose (w3 := World (<[warped_mask_mat tmp := MatrixFile mat']>
                       (<[warped_mask tmp := VolumeFile m]> (files w2)))
                    (tmpnames w2)
                    (trace w2 ++ [EvFlirt (warp args facemask tmp)])).
  assert (flirt_run (warp args facemask tmp) w2 = (Ok tt, w3)) as Hb.
  { rewrite (flirt_run_reads (warp args facemask tmp) w2 fimg subj (Some mat)).
    - simpl. by rewrite Heb.
    - simpl. lookup_step. exact Hface1.
    - simpl. lookup_step. exact Hsub1.
    - simpl. exists mat. split; [|done]. by lookup_step. }
  assert (files w3 !! Namespace.infile args = Some (VolumeFile subj)) as Hl1
    by (simpl; lookup_step; exact Hsub1).
  assert (files w3 !! warped_mask tmp = Some (VolumeFile m)) as Hl2
    by (simpl; by lookup_step).
  exists w3. split.
  - rewrite (deface_image_from_registration args w template facemask outfile
               tmp w1); [|by eapply initial_checks_Ok| |done].
    + rewrite (bind_Ok _ _ _ _ _ Ha), (bind_Ok _ _ _ _ _ Hb).
      rewrite (bind_Ok _ _ _ _ _ (load_Ok _ _ _ Hl1)).
      rewrite (bind_Ok _ _ _ _ _ (load_Ok _ _ _ Hl2)).
      by rewrite (bind_Raise _ _ w3 e w3) by (unfold lift; by rewrite Hmul).
    + destruct Hout as [Hfree|Hforce].
      * by apply output_checks_free.
      * rewrite Hforce. apply output_checks_force.
  - simpl. rewrite !saves_app. simpl. rewrite !app_nil_r, Hs1.
    split_and!; try done; by lookup_step.
Qed.

(** The check of the output path at the start does not look at its
    name: when nibabel has no file name for it, the run goes through
    both registration calls and the multiplication and then raises
    ImageFileError; nothing is saved and all four artifacts stay on
    disk. *)
Theorem outfile_name_refused args w tmp w1 timg fimg subj reg mat m
    mat' outdata :
  let template := default default_template (Namespace.template args) in
  let facemask := default default_facemask (Namespace.facemask args) in
  let infile := Namespace.infile args in
  let outfile := default (default_outfile infile) (Namespace.outfile args) in
  files w !! template = Some (VolumeFile timg) →
  files w !! facemask = Some (VolumeFile fimg) →
  files w !! infile = Some (VolumeFile subj) →
  (files w !! outfile = None ∨ Namespace.force args = true) →
  types_filenames outfile = None →
  temporary_files (Namespace.verbose args) w = (Ok tmp, w1) →
  separate tmp [template; facemask; infile] →
  flirt_engine (Query (Some (Namespace.cost args)) timg subj None false)
    = Some (reg, mat) →
  flirt_engine (Query None fimg subj (Some mat) true) = Some (m, mat') →
  multiply_mask (get_data subj) (get_data m) = Ok outdata →
  ∃ w',
    deface_image args w = (Raise ImageFileError, w')
    ∧ files w' !! warped_mask tmp = Some (VolumeFile m)
    ∧ files w' !! warped_mask_mat tmp = Some (MatrixFile mat')
    ∧ files w' !! template_reg tmp = Some (VolumeFile reg)
    ∧ files w' !! template_reg_mat tmp = Some (MatrixFile mat)
    ∧ saves (trace w') = saves (trace w)
    ∧ flirts (trace w')
      = flirts (trace w)
        ++ [estimate args template tmp; warp args facemask tmp].
Proof.
  intros template facemask infile outfile Htem Hface Hsub Hout Hname Ht Hsep
    Hea Heb Hmul.
  apply separate_inv in Hsep as (N1 & N2 & N3 & N4 & N5 & N6 & Hoth).
  destruct (Hoth template) as (T1 & T2 & T3 & T4); [repeat constructor|].
  destruct (Hoth facemask) as (F1 & F2 & F3 & F4); [repeat constructor|].
  destruct (Hoth infile) as (I1 & I2 & I3 & I4); [repeat constructor|].
  destruct (temporary_files_keeps _ _ _ _ template Ht) as (Htem1 & _);
    [eauto|].
  destruct (temporary_files_keeps _ _ _ _ facemask Ht) as (Hface1 & _);
    [eauto|].
  destruct (temporary_files_keeps _ _ _ _ infile Ht) as (Hsub1 & _);
    [eauto|].
  rewrite Htem in Htem1. rewrite Hface in Hface1. rewrite Hsub in Hsub1.
  assert (saves (trace w1) = saves (trace w)
          ∧ flirts (trace w1) = flirts (trace w)) as [Hs1 Hf1]
    by (by apply temporary_files_Ok_inv in Ht as (?&?&_&_&_&_&_&_&_&?&?)).
  clear Hoth. subst template facemask infile outfile.
  set (template := default default_template (Namespace.template args)) in *.
  set (facemask := default default_facemask (Namespace.facemask args)) in *.
  set (outfile := default (default_outfile (Namespace.infile args))
                          (Namespace.outfile args)) in *.
  pose (w2 := World (<[template_reg_mat tmp := MatrixFile mat]>
                       (<[template_reg tmp := VolumeFile reg]> (files w1)))
                    (tmpnames w1)
                    (trace (announced args w1)
                     ++ [EvFlirt (estimate args template tmp)])).
  assert (flirt_run (estimate args template tmp) (announced args w1)
          = (Ok tt, w2)) as Ha.
  { rewrite (flirt_run_reads (estimate args template tmp)
               (announced args w1) timg subj None Htem1 Hsub1 eq_refl).
    simpl. by rewrite Hea. }
  pose (w3 := World (<[warped_mask_mat tmp := MatrixFile mat']>
                       (<[warped_mask tmp := VolumeFile m]> (files w2)))
                    (tmpnames w2)
                    (trace w2 ++ [EvFlirt (warp args facemask tmp)])).
  assert (flirt_run (warp args facemask tmp) w2 = (Ok tt, w3)) as Hb.
  { rewrite (flirt_run_reads (warp args facemask tmp) w2 fimg subj (Some mat)).
    - simpl. by rewrite Heb.
    - simpl. lookup_step. exact Hface1.
    - simpl. lookup_step. exact Hsub1.
    - simpl. exists mat. split; [|done]. by lookup_step. }
  assert (files w3 !! Namespace.infile args = Some (VolumeFile subj)) as Hl1
    by (simpl; lookup_step; exact Hsub1).
  assert (files w3 !! warped_mask tmp = Some (VolumeFile m)) as Hl2
    by (simpl; by lookup_step).
  exists w3. split.
  - rewrite (deface_image_from_registration args w template facemask outfile
               tmp w1); [|by eapply initial_checks_Ok| |done].
    + rewrite (bind_Ok _ _ _ _ _ Ha), (bind_Ok _ _ _ _ _ Hb).
      rewrite (bind_Ok _ _ _ _ _ (load_Ok _ _ _ Hl1)).
      rewrite (bind_Ok _ _ _ _ _ (load_Ok _ _ _ Hl2)).
      rewrite (bind_Ok _ _ w3 outdata w3) by (unfold lift; by rewrite Hmul).
      apply bind_Raise. unfold to_filename. by rewrite Hname.
    + destruct Hout as [Hfree|Hforce].
      * by apply output_checks_free.
      * rewrite Hforce. apply output_checks_force.
  - simpl. rewrite !saves_app, !flirts_app. simpl.
    rewrite !app_nil_r, Hs1, Hf1, <- ?app_assoc.
    split_and!; try done; by lookup_step.
Qed.

(** *** Further properties of the loop over [args.applyto] *)

Lemma apply_mask_Ok m p w comp outdata fname :
  files w !! p = Some (VolumeFile comp) →
  np.multiply (get_data comp) (get_data m) = Ok outdata →
  files w !! default_outfile p = None →
  types_filenames (default_outfile p) = Some fname →
  apply_mask m p w
  = (Ok tt,
     World (<[fname := VolumeFile
                (Nifti1Image outdata (get_affine comp) (get_header comp))]>
              (files w))
           (tmpnames w)
           (trace w ++ [EvSave fname
                          (Nifti1Image outdata (get_affine comp)
                                       (get_header comp));
                        EvPrint ("  " +:+ p)])).
Proof.
  intros Hc Hd Hfree Hname. unfold apply_mask.
  rewrite (bind_Ok _ _ _ _ _ (load_Ok _ _ _ Hc)).
  rewrite (bind_Ok _ _ w outdata w) by (unfold lift; f_equal; exact Hd).
  rewrite (bind_Ok _ _ w (default_outfile p) w)
    by (by apply (output_checks_free p None false)).
  rewrite (bind_Ok _ _ _ _ _ (to_filename_Ok _ _ _ _ Hname)).
  unfold print, emit. simpl. by rewrite <- app_assoc.
Qed.

Lemma apply_mask_exists m p w :
  is_Some (files w !! default_outfile p) →
  ∃ e, apply_mask m p w = (Raise e, w).
Proof.
  intros Hex. unfold apply_mask.
  destruct (load p w) as [[comp|e] wl] eqn:Hl;
    pose proof (load_world _ _ _ _ Hl) as ->; last first.
  { exists e. by rewrite (bind_Raise _ _ _ _ _ Hl). }
  rewrite (bind_Ok _ _ _ _ _ Hl).
  destruct (np.multiply (get_data comp) (get_data m)) as [d|e] eqn:Hd.
  - rewrite (bind_Ok _ _ w d w) by (unfold lift; f_equal; exact Hd).
    exists OutputExists.
    by rewrite (bind_Raise _ _ _ _ _ (output_checks_exists p None w Hex)).
  - exists e.
    by rewrite (bind_Raise _ _ w e w) by (unfold lift; f_equal; exact Hd).
Qed.

Lemma for_each_app_Raise {T} (l1 l2 : list T) (body : T → M unit) w e w1 :
  for_each l1 body w = (Raise e, w1) →
  for_each (l1 ++ l2) body w = (Raise e, w1).
Proof.
  revert w. induction l1 as [|x l1 IH]; intros w; simpl; [done|].
  intros Hrun. apply bind_Raise_inv in Hrun as [Hx|([] & wx & Hx & Hrun)].
  - by rewrite (bind_Raise _ _ _ _ _ Hx).
  - rewrite (bind_Ok _ _ _ _ _ Hx). by apply IH.
Qed.


(** Two companion images are masked independently of each other: when
    they are processed in one order, they are processed in the other
    order too and the disk ends up the same.  The second image is taken
    not to be the output of the first, and nibabel to write each output
    under the name it is given. *)
Theorem apply_mask_order m a b w w1 :
  for_each [a; b] (apply_mask m) w = (Ok tt, w1) →
  b ≠ default_outfile a →
  image_filename (default_outfile a) = default_outfile a →
  image_filename (default_outfile b) = default_outfile b →
  ∃ w2, for_each [b; a] (apply_mask m) w = (Ok tt, w2)
        ∧ files w2 = files w1.
Proof.
  intros Hrun Hba Hna Hnb. simpl in Hrun.
  apply bind_Ok_inv in Hrun as ([] & wa & Ha & Hrun).
  apply bind_Ok_inv in Hrun as ([] & wb & Hb & Hrun).
  injection Hrun as <-.
  apply apply_mask_Ok_inv in Ha as (ca & da & Hca & Hda & Hfa & Hta & ->).
  apply apply_mask_Ok_inv in Hb as (cb & db & Hcb & Hdb & Hfb & Htb & ->).
  simpl in *. rewrite Hna in *. rewrite Hnb in *.
  rewrite lookup_insert_ne in Hcb by done.
  apply lookup_insert_None in Hfb as [Hfb Hoo].
  assert (a ≠ default_outfile b) as Hab by congruence.
  eexists. split.
  - simpl.
    rewrite (bind_Ok _ _ _ _ _
               (apply_mask_Ok m b w cb db _ Hcb Hdb Hfb Htb)).
    erewrite bind_Ok; [done|].
    apply (apply_mask_Ok m a _ ca da); simpl; [|done| |done].
    + by rewrite lookup_insert_ne.
    + rewrite lookup_insert_ne by done. done.
  - simpl. by apply insert_insert_ne.
Qed.

(** A path that is listed twice stops the loop: its output exists when
    it comes up again, so the loop raises.  nibabel is taken to write
    that output under the name it is given. *)
Theorem applyto_twice_raises m pre p mid post w :
  image_filename (default_outfile p) = default_outfile p →
  ∃ e w', for_each (pre ++ p :: mid ++ p :: post) (apply_mask m) w
          = (Raise e, w').
Proof.
  intros Hname.
  replace (pre ++ p :: mid ++ p :: post)
    with ((pre ++ p :: mid) ++ p :: post) by by rewrite <- app_assoc.
  destruct (for_each (pre ++ p :: mid) (apply_mask m) w) as [[[]|e] w1] eqn:H1.
  - destruct (for_each_apply_mask_Ok _ _ _ _ H1) as (_ & _ & Hout).
    destruct (Hout p) as [img Himg].
    { apply elem_of_app. right. apply list_elem_of_here. }
    rewrite Hname in Himg.
    destruct (apply_mask_exists m p w1) as [e He]; [eauto|].
    exists e, w1. rewrite (for_each_app _ _ _ _ _ H1). simpl.
    by rewrite (bind_Raise _ _ _ _ _ He).
  - exists e, w1. by apply for_each_app_Raise.
Qed.

(** *** [main] from end to end *)

(** When [main] returns, the volumes it saved are, in this order, the
    defaced subject for the resolved output path and one output per
    path of [--applyto], in the order given, each in the file that
    nibabel names from its output path. *)
Theorem main_saves_in_order args w w' :
  main args w = (Ok tt, w') →
  (saves (trace w')).*1
  = (saves (trace w)).*1
    ++ image_filename (default (default_outfile (Namespace.infile args))
                               (Namespace.outfile args))
    :: (image_filename ∘ default_outfile
          <$> default [] (Namespace.applyto args)).
Proof.
  intros Hrun. unfold main in Hrun.
  apply bind_Ok_inv in Hrun as ([] & ww & Hw & Hrun). injection Hw as <-.
  apply bind_Ok_inv in Hrun as (m & wd & Hd & Hrun).
  apply deface_image_saves in Hd
    as (outfile & tmp & w1 & w3 & infile_img & outdata
        & Ho & _ & _ & _ & _ & Hs & _).
  apply output_checks_Ok_inv in Ho as [-> _].
  simpl in Hs. rewrite saves_app in Hs. simpl in Hs.
  rewrite app_nil_r in Hs.
  apply bind_Ok_inv in Hrun as ([] & wl & Hl & Hrun).
  injection Hrun as <-. simpl. rewrite saves_app. simpl. rewrite app_nil_r.
  destruct (Namespace.applyto args) as [l|]; simpl.
  - apply bind_Ok_inv in Hl as ([] & wp & Hp & Hl). injection Hp as <-.
    apply for_each_apply_mask_Ok in Hl as (Hsl & _). simpl in Hsl.
    rewrite saves_app in Hsl. simpl in Hsl. rewrite app_nil_r in Hsl.
    rewrite Hsl, Hs, fmap_app. simpl. by rewrite <- app_assoc.
  - injection Hl as <-. rewrite Hs, fmap_app. simpl. done.
Qed.

(** *** What is printed does not matter *)

Lemma same_disk_refl w : same_disk w w.
Proof. done. Qed.

Lemma same_run_ret {T} (x : T) : same_run (mret x : M T) (mret x).
Proof. by intros w w' Hw. Qed.

Lemma same_run_raise {T} e : same_run (raise e : M T) (raise e).
Proof. by intros w w' Hw. Qed.

Lemma same_run_lift {T} (r : result T) : same_run (lift r : M T) (lift r).
Proof. by intros w w' Hw. Qed.

Lemma same_run_bind {T U} (m m' : M T) (f f' : T → M U) :
  same_run m m' → (∀ a, same_run (f a) (f' a)) →
  same_run (m ≫= f) (m' ≫= f').
Proof.
  intros Hm Hf w w' Hw. destruct (Hm w w' Hw) as [Hr Hd].
  unfold mbind, M_bind.
  destruct (m w) as [[a|e] w1], (m' w') as [[a'|e'] w1']; simplify_eq/=.
  - by apply Hf.
  - done.
Qed.

Lemma same_run_emit e e' : same_run (emit e : M unit) (emit e').
Proof. intros w w' [Hf Ht]. by split. Qed.

(** Printing or not printing comes to the same. *)
Lemma same_run_print_or_not (b b' : bool) s s' :
  same_run (if b then print s else mret tt : M unit)
           (if b' then print s' else mret tt).
Proof. intros w w' [Hf Ht]. by destruct b, b'. Qed.

Lemma same_run_load p : same_run (load p : M image) (load p).
Proof.
  intros w w' [Hf Ht]. unfold load. rewrite Hf.
  by destruct (files w' !! p) as [[]|].
Qed.

Lemma same_run_read_matrix p : same_run (read_matrix p : M xfm) (read_matrix p).
Proof.
  intros w w' [Hf Ht]. unfold read_matrix. rewrite Hf.
  by destruct (files w' !! p) as [[]|].
Qed.

Lemma same_run_write p f : same_run (write p f : M unit) (write p f).
Proof. intros w w' [Hf Ht]. unfold write, same_disk. simpl. by rewrite Hf. Qed.

Lemma same_run_exists p : same_run (exists_ p : M bool) (exists_ p).
Proof. intros w w' [Hf Ht]. unfold exists_. simpl. by rewrite Hf. Qed.

Lemma same_run_remove p : same_run (remove p : M unit) (remove p).
Proof.
  intros w w' [Hf Ht]. unfold remove. rewrite Hf.
  destruct (files w' !! p); [|done]. unfold same_disk. simpl. by rewrite ?Hf.
Qed.

Lemma same_run_mkstemp : same_run (mkstemp : M string) mkstemp.
Proof.
  intros w w' [Hf Ht]. unfold mkstemp. rewrite Hf, Ht.
  destruct (first_free _ _) as [[n rest]|]; [|done].
  unfold same_disk. simpl. by rewrite ?Hf.
Qed.

Lemma same_run_to_filename img p :
  same_run (to_filename img p : M unit) (to_filename img p).
Proof.
  unfold to_filename.
  destruct (filename_parser.types_filenames p); [|apply same_run_raise].
  apply same_run_bind; [apply same_run_emit|]. intros _. apply same_run_write.
Qed.

Lemma same_run_flirt_run inputs : same_run (flirt_run inputs) (flirt_run inputs).
Proof.
  unfold flirt_run.
  apply same_run_bind; [apply same_run_emit|]. intros _.
  apply same_run_bind; [apply same_run_load|]. intros moving.
  apply same_run_bind; [apply same_run_load|]. intros ref.
  apply same_run_bind.
  - destruct (fsl.in_matrix_file inputs); [|apply same_run_ret].
    apply same_run_bind; [apply same_run_read_matrix|].
    intros m0. apply same_run_ret.
  - intros init. destruct (flirt_engine _) as [[out mat]|];
      [|apply same_run_raise].
    apply same_run_bind; [apply same_run_write|]. intros _.
    apply same_run_write.
Qed.

Lemma same_run_initial_checks t f :
  same_run (initial_checks t f) (initial_checks t f).
Proof.
  unfold initial_checks.
  apply same_run_bind; [apply same_run_load|]. intros _.
  apply same_run_bind; [apply same_run_load|]. intros _. apply same_run_ret.
Qed.

Lemma same_run_output_checks i o f :
  same_run (output_checks i o f) (output_checks i o f).
Proof.
  unfold output_checks.
  apply same_run_bind; [apply same_run_exists|]. intros present.
  destruct (present && negb f); [apply same_run_raise|apply same_run_ret].
Qed.

Lemma same_run_temporary_files v v' :
  same_run (temporary_files v : M artifacts) (temporary_files v').
Proof.
  unfold temporary_files.
  apply same_run_bind; [apply same_run_mkstemp|]. intros a.
  apply same_run_bind; [apply same_run_mkstemp|]. intros b.
  apply same_run_bind; [apply same_run_print_or_not|]. intros _.
  apply same_run_bind; [apply same_run_mkstemp|]. intros c.
  apply same_run_bind; [apply same_run_mkstemp|]. intros d.
  apply same_run_ret.
Qed.

Lemma same_run_deface_image i o f a c t fm n v v' :
  same_run (deface_image (Namespace.mk i o f a c t fm n v))
           (deface_image (Namespace.mk i o f a c t fm n v')).
Proof.
  unfold deface_image. simpl.
  apply same_run_bind; [apply same_run_initial_checks|].
  intros [template facemask].
  apply same_run_bind; [apply same_run_output_checks|]. intros outfile.
  apply same_run_bind; [apply same_run_temporary_files|]. intros tmp.
  apply same_run_bind; [apply same_run_emit|]. intros _.
  apply same_run_bind; [apply same_run_flirt_run|]. intros _.
  apply same_run_bind; [apply same_run_flirt_run|]. intros _.
  apply same_run_bind; [apply same_run_load|]. intros infile_img.
  apply same_run_bind; [apply same_run_load|]. intros warped_mask_img.
  apply same_run_bind; [apply same_run_lift|]. intros outdata.
  apply same_run_bind; [apply same_run_to_filename|]. intros _.
  apply same_run_bind.
  { destruct n; [apply same_run_ret|].
    apply same_run_bind; [apply same_run_remove|]. intros _.
    apply same_run_bind; [apply same_run_remove|]. intros _.
    apply same_run_remove. }
  intros _. apply same_run_bind; [apply same_run_emit|]. intros _.
  apply same_run_ret.
Qed.

Lemma same_run_apply_mask m p : same_run (apply_mask m p) (apply_mask m p).
Proof.
  unfold apply_mask.
  apply same_run_bind; [apply same_run_load|]. intros comp.
  apply same_run_bind; [apply same_run_lift|]. intros outdata.
  apply same_run_bind; [apply same_run_output_checks|]. intros outfile.
  apply same_run_bind; [apply same_run_to_filename|]. intros _.
  apply same_run_emit.
Qed.

Lemma same_run_for_each {T} (l : list T) (body : T → M unit) :
  (∀ x, same_run (body x) (body x)) →
  same_run (for_each l body) (for_each l body).
Proof.
  intros Hb. induction l as [|x l IH]; simpl; [apply same_run_ret|].
  apply same_run_bind; [apply Hb|]. by intros _.
Qed.

(** [--verbose] and whatever was printed or called before change
    nothing but the printing: two calls of [main] with the same other
    arguments, on the same disk, return or raise the same and leave
    the same disk. *)
Theorem verbose_only_prints i o f a c t fm n v v' w w' :
  same_disk w w' →
  (main (Namespace.mk i o f a c t fm n v) w).1
  = (main (Namespace.mk i o f a c t fm n v') w').1
  ∧ same_disk (main (Namespace.mk i o f a c t fm n v) w).2
              (main (Namespace.mk i o f a c t fm n v') w').2.
Proof.
  revert w w'. change (same_run (main (Namespace.mk i o f a c t fm n v))
                                (main (Namespace.mk i o f a c t fm n v'))).
  unfold main. simpl.
  apply same_run_bind; [apply same_run_emit|]. intros _.
  apply same_run_bind; [apply same_run_deface_image|]. intros m.
  apply same_run_bind.
  - destruct a as [l|]; [|apply same_run_ret].
    apply same_run_bind; [apply same_run_emit|]. intros _.
    apply same_run_for_each. intros x. apply same_run_apply_mask.
  - intros _. apply same_run_emit.
Qed.

(** The loop does not take [--force]: when the default output path of
    the first companion image is already on disk, [main] raises after
    the primary run, whether or not [--force] was given, and writes
    nothing more. *)
Theorem applyto_never_overwrites args w m wd applyfile rest :
  deface_image args (welcomed w) = (Ok m, wd) →
  Namespace.applyto args = Some (applyfile :: rest) →
  is_Some (files wd !! default_outfile applyfile) →
  ∃ e w', main args w = (Raise e, w') ∧ files w' = files wd.
Proof.
  intros Hrun Hl Hex. rewrite (main_applyto _ _ _ _ _ Hrun Hl).
  set (wp := World (files wd) (tmpnames wd)
                   (trace wd ++ [EvPrint "Defacing mask also applied to:"])).
  destruct (apply_mask_exists m applyfile wp Hex) as [e He].
  exists e, wp. split; [|done].
  apply bind_Raise. rewrite (bind_Ok _ _ wd tt wp) by done.
  simpl. by rewrite (bind_Raise _ _ _ _ _ He).
Qed.

End pipeline_facts.

(** * Examples *)

Section examples.
Import Demo.

#[local] Abbreviation bold := "/data/bold.nii.gz".
#[local] Abbreviation sub := "/data/sub.nii.gz".
#[local] Abbreviation t2 := "/data/t2.nii.gz".
#[local] Abbreviation single := "/data/single.nii.gz".
#[local] Abbreviation sub_defaced := "/data/sub_defaced.nii.gz".
#[local] Abbreviation t2_defaced := "/data/t2_defaced.nii.gz".
#[local] Abbreviation single_defaced := "/data/single_defaced.nii.gz".

Lemma multiply_mask_broadcast_witness :
  np.wf (arange [2; 2; 2; 3]) ∧ np.wf mask222
  ∧ np.multiply (np.squeeze (arange [2; 2; 2; 3])) mask222 = Raise ValueError
  ∧ ∃ out, multiply_mask (arange [2; 2; 2; 3]) mask222 = Ok out
           ∧ np.shape out = [2; 2; 2; 3]
           ∧ np.getitem out [1; 1; 0; 2] = Some 21%Z.
Proof.
  split; [reflexivity|]. split; [reflexivity|]. split; [reflexivity|].
  destruct (proj2 (multiply_mask_broadcast (arange [2; 2; 2; 3]) mask222
                     2 2 2 3 eq_refl eq_refl eq_refl eq_refl
                     (Nat.lt_0_succ 2)) eq_refl)
    as (tmpdata & out & _ & _ & _ & Hout & Hshape & Hitem).
  exists out. split; [exact Hout|]. split; [exact Hshape|].
  destruct (Hitem 1 1 0 2) as (s & m & Hs & Hm & ->); [lia..|].
  vm_compute in Hs, Hm. by injection Hs as <-; injection Hm as <-.
Defined.

(** A subject with a trailing axis of length one: the run succeeds and
    the saved volume has lost that axis. *)
Lemma output_shape_collapsed :
  ∃ m w' out,
    deface_image (ext:=working) (args_of single false None) w0 = (Ok m, w')
    ∧ files w0 !! single = Some (VolumeFile single_img)
    ∧ np.shape (get_data single_img) = [2; 2; 2; 1]
    ∧ saves (trace w') = [(single_defaced, out)]
    ∧ np.shape (get_data out) = [2; 2; 2]
    ∧ np.shape (get_data out) ≠ np.shape (get_data single_img).
Proof.
  eexists _, _, _. split_and!; [vm_compute; reflexivity..|].
  vm_compute. discriminate.
Qed.

Lemma output_shape_witness :
  (∃ out, multiply_mask (arange [2; 2; 2; 3]) mask222 = Ok out
          ∧ np.shape out = np.shape (arange [2; 2; 2; 3]))
  ∧ (∃ out, multiply_mask (arange [2; 2; 2; 1]) mask222 = Ok out
            ∧ np.shape out = [2; 2; 2]
            ∧ np.shape out ≠ np.shape (arange [2; 2; 2; 1])).
Proof.
  split.
  - destruct (multiply_mask (arange [2; 2; 2; 3]) mask222) as [out|e] eqn:E;
      [|vm_compute in E; discriminate E].
    exists out. split; [reflexivity|].
    apply (proj1 (proj2 (output_shape (arange [2; 2; 2; 3]) mask222 out 2 2 2
                           eq_refl E)) 3 eq_refl).
    rewrite !not_elem_of_cons.
    split_and!; [discriminate..|apply not_elem_of_nil].
  - destruct (multiply_mask (arange [2; 2; 2; 1]) mask222) as [out|e] eqn:E;
      [|vm_compute in E; discriminate E].
    destruct (proj2 (proj2 (proj2 (output_shape (arange [2; 2; 2; 1]) mask222
                                     out 2 2 2 eq_refl E))) eq_refl)
      as [Hdirect Hlead].
    exists out. split; [reflexivity|]. split.
    + apply Hlead. split; discriminate.
    + destruct (np.multiply (np.squeeze (arange [2; 2; 2; 1])) mask222)
        as [o|e] eqn:Hmul; [|vm_compute in Hmul; discriminate Hmul].
      exact (proj2 (Hdirect o eq_refl)).
Defined.

(** A run with cleanup: afterwards the warped mask file is gone and the
    matrix written by the second registration call is still there. *)
Lemma cleanup_removes_mask :
  ∃ m w' w1,
    temporary_files false w0 = (Ok tmp0, w1)
    ∧ Namespace.nocleanup args0 = false
    ∧ deface_image (ext:=working) args0 w0 = (Ok m, w')
    ∧ files w' !! warped_mask tmp0 = None
    ∧ files w' !! warped_mask_mat tmp0 = Some (MatrixFile "xfm").
Proof. eexists _, _, _. split_and!; vm_compute; reflexivity. Qed.

Lemma cleanup_removes_witness :
  ∃ m w', deface_image (ext:=working) args0 w0 = (Ok m, w')
          ∧ files w' !! template_reg tmp0 = None
          ∧ files w' !! template_reg_mat tmp0 = None
          ∧ files w' !! warped_mask tmp0 = None.
Proof.
  exists warped_img, (deface_image (ext:=working) args0 w0).2.
  assert (deface_image (ext:=working) args0 w0
          = (Ok warped_img, (deface_image (ext:=working) args0 w0).2)) as Hrun
    by (vm_compute; reflexivity).
  split; [exact Hrun|].
  apply (cleanup_removes (ext:=working) args0 w0 warped_img _ tmp0
           (temporary_files false w0).2);
    [vm_compute; reflexivity|reflexivity|exact Hrun].
Defined.

(** C4: the loop over [args.applyto] multiplies without squeezing and
    without the fallback.  On a 4D companion image and a 3D mask the
    primary path succeeds, with the output in the shape of the image,
    and the loop raises ValueError. *)
Theorem applyto_lacks_fallback :
  np.shape (get_data bold_img) = [2; 2; 2; 3]
  ∧ np.shape (get_data warped_img) = [2; 2; 2]
  ∧ (∃ out, multiply_mask (get_data bold_img) (get_data warped_img) = Ok out
            ∧ np.shape out = [2; 2; 2; 3])
  ∧ np.multiply (get_data bold_img) (get_data warped_img) = Raise ValueError
  ∧ (∃ m w', deface_image (ext:=working) (args_of bold false None) w0
             = (Ok m, w'))
  ∧ (∃ w', apply_mask (ext:=working) warped_img bold w0
           = (Raise ValueError, w'))
  ∧ (∃ w', main (ext:=working) (args_of sub false (Some [bold])) w0
           = (Raise ValueError, w')).
Proof.
  split_and!; try reflexivity.
  - eexists. split; vm_compute; reflexivity.
  - eexists _, _. vm_compute. reflexivity.
  - eexists. vm_compute. reflexivity.
  - eexists. vm_compute. reflexivity.
Qed.



(** A subject and a mask of shape (2,1,2): the inner axis is removed,
    which dropping trailing axes of length one would not do, and the
    product has shape (2,2,2), not that of the element-wise product. *)
Lemma squeeze_collapses_inner_axis :
  np.shape (np.squeeze (arange [2; 1; 2])) = [2; 2]
  ∧ collapse_trailing_ones (np.shape (arange [2; 1; 2])) = [2; 1; 2]
  ∧ np.shape (np.squeeze (arange [2; 1; 2]))
    ≠ collapse_trailing_ones (np.shape (arange [2; 1; 2]))
  ∧ ∃ out, multiply_mask (arange [2; 1; 2]) (arange [2; 1; 2]) = Ok out
           ∧ np.shape out = [2; 2; 2]
           ∧ np.getitem out [1; 0; 1] = Some 8%Z
           ∧ np.getitem (arange [2; 1; 2]) [1; 0; 1] = Some 4%Z.
Proof.
  split_and!; [reflexivity|reflexivity|vm_compute; discriminate|].
  eexists. split_and!; vm_compute; reflexivity.
Qed.

Lemma direct_multiply_3d_witness :
  np.wf (arange [2; 2; 2]) ∧ np.wf mask222 ∧ leading_ones 2 2 2
  ∧ ∃ out, multiply_mask (arange [2; 2; 2]) mask222 = Ok out
           ∧ np.shape out = [2; 2; 2]
           ∧ np.getitem out [1; 0; 1] = Some 6%Z.
Proof.
  assert (leading_ones 2 2 2) as Hlead by (split; discriminate).
  split; [reflexivity|]. split; [reflexivity|]. split; [exact Hlead|].
  destruct (direct_multiply_3d (arange [2; 2; 2]) mask222 2 2 2
              eq_refl eq_refl eq_refl eq_refl Hlead)
    as (_ & _ & out & _ & Hout & Hshape & Hitem).
  exists out. split; [exact Hout|]. split; [exact Hshape|].
  destruct (Hitem 1 0 1) as (s & m & Hs & Hm & ->); [lia..|].
  vm_compute in Hs, Hm. by injection Hs as <-; injection Hm as <-.
Defined.



Lemma batch_aborts_witness :
  ∃ w1,
    for_each [sub; t2; bold; single] (apply_mask (ext:=working) warped_img) w0
    = (Raise ValueError, w1)
    ∧ (saves (trace w1)).*1 = [sub_defaced; t2_defaced]
    ∧ is_Some (files w1 !! sub_defaced)
    ∧ is_Some (files w1 !! t2_defaced)
    ∧ files w1 !! single_defaced = None.
Proof.
  set (w1 := (for_each [sub; t2] (apply_mask (ext:=working) warped_img) w0).2).
  assert (for_each [sub; t2] (apply_mask (ext:=working) warped_img) w0
          = (Ok tt, w1)) as Hdone by (vm_compute; reflexivity).
  assert (apply_mask (ext:=working) warped_img bold w1
          = (Raise ValueError, w1)) as Hfail by (vm_compute; reflexivity).
  destruct (batch_aborts (ext:=working) warped_img [sub; t2] bold [single]
              w0 w1 ValueError w1 Hdone Hfail) as (Hrun & _ & Hs & Hout).
  exists w1. split; [exact Hrun|]. split; [exact Hs|].
  split; [|split].
  - destruct (Hout sub) as [img Himg]; [repeat constructor|].
    exists (VolumeFile img). exact Himg.
  - destruct (Hout t2) as [img Himg]; [repeat constructor|].
    exists (VolumeFile img). exact Himg.
  - vm_compute. reflexivity.
Defined.

Lemma registration_failure_aborts_witness :
  ∃ w', deface_image (ext:=broken) args0 w0 = (Raise RuntimeError, w')
        ∧ length (flirts (trace w')) = 1
        ∧ saves (trace w') = []
        ∧ files w' !! sub_defaced = None
        ∧ files w' !! warped_mask tmp0 = None.
Proof.
  destruct (registration_failure_aborts (ext:=broken) args0 w0
              "/pkg/mean_reg2mean.nii.gz" "/pkg/facemask.nii.gz"
              sub_defaced tmp0 (temporary_files false w0).2
              template_img subject_img
              ltac:(vm_compute; reflexivity) ltac:(vm_compute; reflexivity)
              ltac:(vm_compute; reflexivity) eq_refl eq_refl eq_refl)
    as (w' & Hrun & Hf & _ & Hfl & Hs).
  exists w'. split; [exact Hrun|]. rewrite Hfl, Hs, Hf.
  split_and!; vm_compute; reflexivity.
Defined.

Lemma mask_reused_in_memory_witness :
  ∃ w' w'' r wb,
    deface_image (ext:=working) (args_of sub false (Some [t2]))
      (welcomed (ext:=working) w0)
    = (Ok warped_img, w')
    ∧ files w' !! warped_mask tmp0 = None
    ∧ main (ext:=working) (args_of sub false (Some [t2])) w0 = (Ok tt, w'')
    ∧ length (flirts (trace w'')) = 2
    ∧ saves (trace w'') !! 1
      = Some (t2_defaced, Image masked222 "t2" "t2-hdr")
    ∧ for_each [t2] (apply_mask (ext:=working) warped_img) w' = (r, wb)
    ∧ r = Ok tt
    ∧ for_each [t2] (apply_mask (ext:=working) warped_img)
        (with_file (warped_mask tmp0) (Some (VolumeFile warped_img)) w')
      = (r, with_file (warped_mask tmp0) (Some (VolumeFile warped_img)) wb).
Proof.
  set (args := args_of sub false (Some [t2])).
  set (w' := (deface_image (ext:=working) args (welcomed (ext:=working) w0)).2).
  set (w'' := (main (ext:=working) args w0).2).
  assert (deface_image (ext:=working) args (welcomed (ext:=working) w0)
          = (Ok warped_img, w')) as Hrun by (vm_compute; reflexivity).
  assert (main (ext:=working) args w0 = (Ok tt, w'')) as Hmain
    by (vm_compute; reflexivity).
  destruct (mask_reused_in_memory (ext:=working) args w0 warped_img w' Hrun)
    as (_ & Hgone & _ & Hloop & Hframe).
  destruct (Hloop [t2] w'' eq_refl Hmain) as (Hfl & Hitem).
  destruct (Hitem [] t2 [] eq_refl) as (comp & outdata & Hcomp & Hd & Hsave).
  specialize (Hcomp (not_elem_of_nil _)).
  vm_compute in Hcomp. injection Hcomp as <-.
  vm_compute in Hd. injection Hd as <-.
  assert (length (saves (trace w')) + length (@nil string) = 1) as Hidx
    by (vm_compute; reflexivity).
  rewrite Hidx in Hsave.
  set (rw := for_each [t2] (apply_mask (ext:=working) warped_img) w').
  exists w', w'', rw.1, rw.2. split; [exact Hrun|]. split.
  { apply (Hgone eq_refl tmp0
             (temporary_files false (welcomed (ext:=working) w0)).2).
    vm_compute. reflexivity. }
  split; [exact Hmain|]. split; [rewrite Hfl; vm_compute; reflexivity|].
  split; [exact Hsave|].
  split; [apply surjective_pairing|]. split; [vm_compute; reflexivity|].
  apply Hframe; [| | |apply surjective_pairing].
  - intros Hin. apply list_elem_of_singleton in Hin. discriminate Hin.
  - intros Hin. apply list_elem_of_singleton in Hin. discriminate Hin.
  - intros Hin. apply list_elem_of_singleton in Hin. vm_compute in Hin.
    discriminate Hin.
Defined.

Lemma multiply_mask_4d_returns_witness :
  ∃ out, multiply_mask (arange [2; 2; 2; 3]) mask222 = Ok out.
Proof.
  apply (multiply_mask_4d_returns (arange [2; 2; 2; 3]) mask222 2 2 2 3
           eq_refl eq_refl (Nat.lt_0_succ 2)).
Defined.

Lemma multiply_mask_cubic_witness :
  ∃ out, multiply_mask (arange [2; 2; 2; 2]) mask222 = Ok out
         ∧ np.shape out = [2; 2; 2; 2]
         ∧ np.getitem out [1; 0; 0; 1] = Some 0%Z
         ∧ np.getitem (arange [2; 2; 2; 2]) [1; 0; 0; 1] = Some 10%Z
         ∧ np.getitem mask222 [1; 0; 0] = Some 1%Z.
Proof.
  destruct (multiply_mask_cubic (arange [2; 2; 2; 2]) mask222 2
              eq_refl eq_refl eq_refl eq_refl ltac:(discriminate))
    as (out & _ & Hout & Hshape & Hitem).
  exists out. split; [exact Hout|]. split; [exact Hshape|].
  destruct (Hitem 1 0 0 1) as (s & m & Hs & Hm & ->); [lia..|].
  vm_compute in Hs, Hm. injection Hs as <-. injection Hm as <-.
  split_and!; reflexivity.
Defined.

Lemma multiply_mask_single_frame_witness :
  ∃ out, multiply_mask (arange [2; 2; 2; 1]) mask222 = Ok out
         ∧ np.shape out = [2; 2; 2]
         ∧ np.getitem out [1; 0; 1] = Some 6%Z.
Proof.
  assert (leading_ones 2 2 2) as Hlead by (split; discriminate).
  destruct (multiply_mask_single_frame (arange [2; 2; 2; 1]) mask222 2 2 2
              eq_refl eq_refl eq_refl eq_refl Hlead)
    as (out & _ & Hout & Hshape & Hitem).
  exists out. split; [exact Hout|]. split; [exact Hshape|].
  destruct (Hitem 1 0 1) as (s & m & Hs & Hm & ->); [lia..|].
  vm_compute in Hs, Hm. by injection Hs as <-; injection Hm as <-.
Defined.

Lemma multiply_mask_shifted_grid_witness :
  np.multiply (np.squeeze (arange [2; 2; 3])) mask222 = Raise ValueError
  ∧ ∃ out, multiply_mask (arange [2; 2; 3]) mask222 = Ok out
           ∧ np.shape out = [2; 2; 2; 3]
           ∧ np.getitem out [1; 1; 0; 2] = Some 9%Z.
Proof.
  destruct (multiply_mask_shifted_grid (arange [2; 2; 3]) mask222 2 2 2 3
              eq_refl eq_refl eq_refl eq_refl
              ltac:(discriminate) ltac:(discriminate) ltac:(discriminate)
              (Nat.lt_0_succ 2))
    as (Hfail & out & Hout & Hshape & Hitem).
  split; [exact Hfail|].
  exists out. split; [exact Hout|]. split; [exact Hshape|].
  destruct (Hitem 1 1 0 2) as (s & m & Hs & Hm & ->); [lia..|].
  vm_compute in Hs, Hm. by injection Hs as <-; injection Hm as <-.
Defined.



Lemma run0 :
  deface_image (ext:=working) args0 w0
  = (Ok warped_img, (deface_image (ext:=working) args0 w0).2).
Proof. vm_compute. reflexivity. Qed.

Lemma registration_chain_witness :
  ∃ reg mat mat',
    resample (Query (Some "mutualinfo") template_img subject_img None false)
    = Some (reg, mat)
    ∧ resample (Query None facemask_img subject_img (Some mat) true)
      = Some (warped_img, mat').
Proof.
  apply (registration_chain (ext:=working) args0 w0 warped_img _
           "/pkg/mean_reg2mean.nii.gz" "/pkg/facemask.nii.gz"
           template_img facemask_img subject_img tmp0
           (temporary_files false w0).2
           ltac:(vm_compute; reflexivity) eq_refl eq_refl eq_refl
           ltac:(vm_compute; reflexivity)
           ltac:(discriminate) ltac:(discriminate) run0).
Defined.

Lemma deface_image_frame_witness :
  files (deface_image (ext:=working) args0 w0).2 !! "/pkg/facemask.nii.gz"
  = Some (VolumeFile facemask_img)
  ∧ files (deface_image (ext:=working) args0 w0).2 !! sub
    = Some (VolumeFile subject_img).
Proof.
  split.
  - rewrite (deface_image_frame (ext:=working) args0 w0 warped_img _ tmp0
               (temporary_files false w0).2 "/pkg/facemask.nii.gz"
               ltac:(vm_compute; reflexivity)
               (ex_intro _ (VolumeFile facemask_img) eq_refl)
               ltac:(vm_compute; discriminate) ltac:(discriminate)
               ltac:(discriminate) run0).
    reflexivity.
  - rewrite (deface_image_frame (ext:=working) args0 w0 warped_img _ tmp0
               (temporary_files false w0).2 sub
               ltac:(vm_compute; reflexivity)
               (ex_intro _ (VolumeFile subject_img) eq_refl)
               ltac:(vm_compute; discriminate) ltac:(discriminate)
               ltac:(discriminate) run0).
    reflexivity.
Defined.

Lemma mkstemp_files_left_witness :
  ∃ w', deface_image (ext:=working) args0 w0 = (Ok warped_img, w')
        ∧ files w' !! "/tmp/tmpa" = Some EmptyFile
        ∧ files w' !! "/tmp/tmpb" = Some EmptyFile.
Proof.
  destruct (mkstemp_files_left (ext:=working) args0 w0 warped_img _ tmp0
              (temporary_files false w0).2
              ltac:(vm_compute; reflexivity) run0)
    as (a & b & Hmk & _ & _ & _ & _ & Hleft).
  vm_compute in Hmk. injection Hmk as <- <-.
  eexists. split; [exact run0|]. split.
  - apply Hleft; [repeat constructor|].
    rewrite !not_elem_of_cons.
    split_and!; [vm_compute; discriminate..|]. apply not_elem_of_nil.
  - apply Hleft; [repeat constructor|].
    rewrite !not_elem_of_cons.
    split_and!; [vm_compute; discriminate..|]. apply not_elem_of_nil.
Defined.

Lemma separate_tmp0_inputs :
  separate tmp0 ["/pkg/mean_reg2mean.nii.gz"; "/pkg/facemask.nii.gz"; sub].
Proof. apply (bool_decide_unpack _). vm_compute. exact I. Qed.

Lemma warp_failure_leaves_artifacts_witness :
  ∃ w', deface_image (ext:=estimates_only) args0 w0 = (Raise RuntimeError, w')
        ∧ files w' !! template_reg tmp0 = Some (VolumeFile registered_img)
        ∧ files w' !! template_reg_mat tmp0 = Some (MatrixFile "xfm")
        ∧ saves (trace w') = []
        ∧ length (flirts (trace w')) = 2.
Proof.
  destruct (warp_failure_leaves_artifacts (ext:=estimates_only) args0 w0 tmp0
              (temporary_files false w0).2 template_img facemask_img
              subject_img registered_img "xfm"
              eq_refl eq_refl eq_refl (or_introl eq_refl)
              ltac:(vm_compute; reflexivity) separate_tmp0_inputs
              eq_refl eq_refl)
    as (w' & Hrun & Hreg & Hmat & Hs & Hfl).
  exists w'. rewrite Hfl. split_and!; done.
Defined.

Lemma separate_tmp0_odd :
  separate tmp0 ["/pkg/mean_reg2mean.nii.gz"; "/pkg/facemask.nii.gz";
                 "/data/odd.nii.gz"].
Proof. apply (bool_decide_unpack _). vm_compute. exact I. Qed.

Lemma shape_failure_saves_nothing_witness :
  ∃ w', deface_image (ext:=working) (args_of "/data/odd.nii.gz" false None)
          w_odd = (Raise ValueError, w')
        ∧ files w' !! warped_mask tmp0
          = Some (VolumeFile (Image mask222 "odd" "odd-hdr"))
        ∧ saves (trace w') = []
        ∧ files w' !! "/data/odd_defaced.nii.gz" = None.
Proof.
  destruct (shape_failure_saves_nothing (ext:=working)
              (args_of "/data/odd.nii.gz" false None) w_odd tmp0
              (temporary_files false w_odd).2 template_img facemask_img
              odd_img (Image (arange [2; 2; 2]) "odd" "odd-hdr") "xfm"
              (Image mask222 "odd" "odd-hdr") "xfm" ValueError
              eq_refl eq_refl eq_refl (or_introl eq_refl)
              ltac:(vm_compute; reflexivity) separate_tmp0_odd
              eq_refl eq_refl ltac:(vm_compute; reflexivity))
    as (w' & Hrun & Hmask & _ & _ & _ & Hs).
  exists w'. split; [exact Hrun|]. split; [exact Hmask|]. split; [exact Hs|].
  assert (w' = (deface_image (ext:=working)
                  (args_of "/data/odd.nii.gz" false None) w_odd).2) as ->
    by by rewrite Hrun.
  vm_compute. reflexivity.
Defined.

Lemma outfile_name_refused_witness :
  ∃ w', deface_image (ext:=working) (args_out "/data/out.txt") w0
        = (Raise ImageFileError, w')
        ∧ files w' !! warped_mask tmp0 = Some (VolumeFile warped_img)
        ∧ saves (trace w') = []
        ∧ length (flirts (trace w')) = 2
        ∧ files w' !! "/data/out.txt" = None.
Proof.
  destruct (outfile_name_refused (ext:=working) (args_out "/data/out.txt")
              w0 tmp0 (temporary_files false w0).2 template_img facemask_img
              subject_img registered_img "xfm" warped_img "xfm" masked222
              eq_refl eq_refl eq_refl (or_introl eq_refl)
              ltac:(vm_compute; reflexivity)
              ltac:(vm_compute; reflexivity) separate_tmp0_inputs
              eq_refl eq_refl ltac:(vm_compute; reflexivity))
    as (w' & Hrun & Hmask & _ & _ & _ & Hs & Hfl).
  exists w'. rewrite Hfl. split; [exact Hrun|]. split; [exact Hmask|].
  split; [exact Hs|]. split; [reflexivity|].
  assert (w' = (deface_image (ext:=working) (args_out "/data/out.txt")
                  w0).2) as -> by by rewrite Hrun.
  vm_compute. reflexivity.
Defined.


Lemma apply_mask_order_witness :
  ∃ w1 w2,
    for_each [sub; t2] (apply_mask (ext:=working) warped_img) w0 = (Ok tt, w1)
    ∧ for_each [t2; sub] (apply_mask (ext:=working) warped_img) w0
      = (Ok tt, w2)
    ∧ files w2 = files w1.
Proof.
  set (w1 := (for_each [sub; t2] (apply_mask (ext:=working) warped_img) w0).2).
  assert (for_each [sub; t2] (apply_mask (ext:=working) warped_img) w0
          = (Ok tt, w1)) as H1 by (vm_compute; reflexivity).
  destruct (apply_mask_order (ext:=working) warped_img sub t2 w0 w1 H1
              ltac:(vm_compute; discriminate)
              ltac:(vm_compute; reflexivity) ltac:(vm_compute; reflexivity))
    as (w2 & H2 & Hf).
  by exists w1, w2.
Defined.

Lemma applyto_twice_raises_witness :
  ∃ e w', for_each [sub; t2; sub] (apply_mask (ext:=working) warped_img) w0
          = (Raise e, w').
Proof.
  apply (applyto_twice_raises (ext:=working) warped_img [] sub [t2] [] w0).
  vm_compute. reflexivity.
Defined.

Lemma main_saves_in_order_witness :
  ∃ w', main (ext:=working) (args_of sub false (Some [t2])) w0 = (Ok tt, w')
        ∧ (saves (trace w')).*1 = [sub_defaced; t2_defaced].
Proof.
  set (w' := (main (ext:=working) (args_of sub false (Some [t2])) w0).2).
  assert (main (ext:=working) (args_of sub false (Some [t2])) w0
          = (Ok tt, w')) as Hrun by (vm_compute; reflexivity).
  exists w'. split; [exact Hrun|].
  exact (main_saves_in_order (ext:=working) _ _ _ Hrun).
Defined.

Lemma verbose_only_prints_witness :
  same_disk w0 (welcomed (ext:=working) w0)
  ∧ (main (ext:=working) args0 w0).1
    = (main (ext:=working) args_verbose (welcomed (ext:=working) w0)).1
  ∧ same_disk (main (ext:=working) args0 w0).2
      (main (ext:=working) args_verbose (welcomed (ext:=working) w0)).2.
Proof.
  assert (same_disk w0 (welcomed (ext:=working) w0)) as Hw by (split; reflexivity).
  split; [exact Hw|].
  exact (verbose_only_prints (ext:=working) sub None false None "mutualinfo"
           None None false false true w0 (welcomed (ext:=working) w0) Hw).
Defined.

Lemma applyto_never_overwrites_witness :
  ∃ e w', main (ext:=working) (args_of sub true (Some [sub])) w_again
          = (Raise e, w').
Proof.
  set (args := args_of sub true (Some [sub])).
  set (wd := (deface_image (ext:=working) args
                (welcomed (ext:=working) w_again)).2).
  assert (deface_image (ext:=working) args (welcomed (ext:=working) w_again)
          = (Ok warped_img, wd)) as Hrun by (vm_compute; reflexivity).
  destruct (applyto_never_overwrites (ext:=working) args w_again warped_img
              wd sub [] Hrun eq_refl) as (e & w' & Hmain & _).
  { eexists. vm_compute. reflexivity. }
  by exists e, w'.
Defined.

End examples.
